(** * A shallow embedding of the poke-project frontend

    The React frontend (src/frontend/src/App.js, ui/Items.js, ui/FoundItems.js,
    ui/SearchForm.js, ui/ItemsTPL.js) is modelled as pure functions over
    explicit component state: state initialisers, event handlers returning the
    next state and browser state, query configurations handed to react-query,
    and render functions returning the produced nodes.

    A JavaScript string is represented by its UTF-8 encoding, a [string] of
    bytes. *)

From Stdlib Require Import NArith ZArith String Ascii List Bool Lia.
Import ListNotations.
Open Scope string_scope.
Open Scope Z_scope.

(** ** JavaScript values *)
Module JS.

(** Numbers as they arise in this program: results of [parseInt] and integer
    arithmetic on them (exact as doubles below 2^53), or [NaN]. *)
Inductive num := Num (z : Z) | NaN.

Definition num_sub (a b : num) : num :=
  match a, b with Num x, Num y => Num (x - y) | _, _ => NaN end.
Definition num_mul (a b : num) : num :=
  match a, b with Num x, Num y => Num (x * y) | _, _ => NaN end.

(** [===] on numbers: [NaN] is equal to nothing. *)
Definition num_strict_eq (a b : num) : bool :=
  match a, b with Num x, Num y => Z.eqb x y | _, _ => false end.

(** The values the components handle; [JObj] stands for any object or
    function (always truthy). *)
Inductive jsval :=
| JUndefined
| JNull
| JBool (b : bool)
| JNum (n : num)
| JStr (s : string)
| JObj (tag : string).

Definition truthy (v : jsval) : bool :=
  match v with
  | JUndefined | JNull => false
  | JBool b => b
  | JNum (Num z) => negb (Z.eqb z 0)
  | JNum NaN => false
  | JStr s => negb (String.eqb s "")
  | JObj _ => true
  end.

(** Operand of [??]: [null] or [undefined]. *)
Definition nullish (v : jsval) : bool :=
  match v with JUndefined | JNull => true | _ => false end.

(** *** Decimal rendering of integers (Number.prototype.toString) *)
Definition digit_char (d : N) : ascii := ascii_of_N (48 + d).

Fixpoint N_digits (fuel : nat) (n : N) (acc : string) : string :=
  match fuel with
  | O => acc
  | S f =>
      let acc' := String (digit_char (N.modulo n 10)) acc in
      if N.ltb n 10 then acc' else N_digits f (N.div n 10) acc'
  end.

Definition N_to_str (n : N) : string := N_digits (S (N.size_nat n)) n "".

Definition Z_to_str (z : Z) : string :=
  if Z.ltb z 0 then String "-" (N_to_str (Z.to_N (- z))) else N_to_str (Z.to_N z).

Definition num_to_str (n : num) : string :=
  match n with Num z => Z_to_str z | NaN => "NaN" end.

(** ToString, as used by template literals. *)
Definition to_str (v : jsval) : string :=
  match v with
  | JUndefined => "undefined"
  | JNull => "null"
  | JBool true => "true"
  | JBool false => "false"
  | JNum n => num_to_str n
  | JStr s => s
  | JObj _ => "[object Object]"
  end.

(** *** parseInt (no radix argument) *)

(** The white space parseInt skips: TAB, LF, VT, FF, CR and SPACE, and the
    non-ASCII ones (U+00A0, U+1680, U+2000-U+200A, U+2028, U+2029, U+202F,
    U+205F, U+3000, U+FEFF) by their UTF-8 bytes. *)
Definition is_ws (c : ascii) : bool :=
  let n := nat_of_ascii c in ((9 <=? n) && (n <=? 13))%nat || (n =? 32)%nat.

Definition ws_lead (a : ascii) : bool :=
  let x := N_of_ascii a in
  ((x =? 194) || (x =? 225) || (x =? 226) || (x =? 227) || (x =? 239))%N.

Definition ws2 (a b : ascii) : bool :=
  ((N_of_ascii a =? 194) && (N_of_ascii b =? 160))%N.

Definition ws3 (a b c : ascii) : bool :=
  let x := N_of_ascii a in let y := N_of_ascii b in let z := N_of_ascii c in
  (((x =? 225) && (y =? 154) && (z =? 128)) ||
   ((x =? 226) && (y =? 128) &&
      (((128 <=? z) && (z <=? 138)) || (z =? 168) || (z =? 169) || (z =? 175))) ||
   ((x =? 226) && (y =? 129) && (z =? 159)) ||
   ((x =? 227) && (y =? 128) && (z =? 128)) ||
   ((x =? 239) && (y =? 187) && (z =? 191)))%N.

Fixpoint skip_ws (s : string) : string :=
  match s with
  | EmptyString => s
  | String a r =>
      if is_ws a then skip_ws r
      else if ws_lead a then
        match r with
        | String b r2 =>
            if ws2 a b then skip_ws r2
            else match r2 with
                 | String c r3 => if ws3 a b c then skip_ws r3 else s
                 | EmptyString => s
                 end
        | EmptyString => s
        end
      else s
  end.

Definition digit_val (radix : Z) (c : ascii) : option Z :=
  let n := Z.of_nat (nat_of_ascii c) in
  let d := if (48 <=? n) && (n <=? 57) then Some (n - 48)
           else if (97 <=? n) && (n <=? 122) then Some (n - 87)
           else if (65 <=? n) && (n <=? 90) then Some (n - 55)
           else None in
  match d with Some v => if v <? radix then Some v else None | None => None end.

Fixpoint digits_acc (radix : Z) (s : string) (acc : option Z) : option Z :=
  match s with
  | EmptyString => acc
  | String c r =>
      match digit_val radix c with
      | Some d =>
          digits_acc radix r
            (Some (match acc with Some a => a * radix + d | None => d end))
      | None => acc
      end
  end.

Definition parseInt_str (s0 : string) : num :=
  let s1 := skip_ws s0 in
  let '(sign, s2) :=
    match s1 with
    | String "-" r => (-1, r)
    | String "+" r => (1, r)
    | _ => (1, s1)
    end in
  let '(radix, s3) :=
    match s2 with
    | String "0" (String x r) =>
        if (Ascii.eqb x "x" || Ascii.eqb x "X")%bool then (16, r) else (10, s2)
    | _ => (10, s2)
    end in
  match digits_acc radix s3 None with
  | Some v => Num (sign * v)
  | None => NaN
  end.

Definition parseInt (v : jsval) : num := parseInt_str (to_str v).

(** String.prototype.toLowerCase on strings of ASCII characters. Beyond ASCII
    it applies the Unicode case mapping, which is not modelled here: the
    search form below takes the case mapping as an argument, and this one is
    used only on ASCII input. *)
Definition lower_char (c : ascii) : ascii :=
  let n := nat_of_ascii c in
  if ((65 <=? n) && (n <=? 90))%nat then ascii_of_nat (n + 32) else c.

Fixpoint ascii_toLowerCase (s : string) : string :=
  match s with
  | EmptyString => EmptyString
  | String c r => String (lower_char c) (ascii_toLowerCase r)
  end.

(** A props object: JSX attributes; destructuring a missing one gives
    [undefined]. *)
Definition props := list (string * jsval).

Fixpoint props_get (k : string) (p : props) : jsval :=
  match p with
  | [] => JUndefined
  | (k', v) :: r => if String.eqb k k' then v else props_get k r
  end.

End JS.
Import JS.

(** ** URLs and URLSearchParams *)
Module Url.

Fixpoint split_on (c : ascii) (s : string) : list string :=
  match s with
  | EmptyString => [EmptyString]
  | String x r =>
      if Ascii.eqb x c then EmptyString :: split_on c r
      else match split_on c r with
           | [] => [String x EmptyString]
           | h :: t => String x h :: t
           end
  end.

(** Split at the first occurrence of [c]; [None] when absent. *)
Fixpoint split_first (c : ascii) (s : string) : string * option string :=
  match s with
  | EmptyString => (EmptyString, None)
  | String x r =>
      if Ascii.eqb x c then (EmptyString, Some r)
      else let '(a, b) := split_first c r in (String x a, b)
  end.

(** *** The application/x-www-form-urlencoded parser behind URLSearchParams *)

(** '+' stands for a space. *)
Fixpoint plus_to_space (s : string) : string :=
  match s with
  | EmptyString => EmptyString
  | String c r => String (if Ascii.eqb c "+" then " "%char else c) (plus_to_space r)
  end.

Definition hex_val (c : ascii) : option N :=
  let n := N_of_ascii c in
  if ((48 <=? n) && (n <=? 57))%N then Some (n - 48)%N
  else if ((65 <=? n) && (n <=? 70))%N then Some (n - 55)%N
  else if ((97 <=? n) && (n <=? 102))%N then Some (n - 87)%N
  else None.

(** Percent-decoding: '%' and two hex digits give the byte they spell; any
    other byte, a '%' not followed by two hex digits included, is kept. *)
Fixpoint pct_decode (s : string) : string :=
  match s with
  | EmptyString => EmptyString
  | String c r =>
      if Ascii.eqb c "%" then
        match r with
        | String h1 (String h2 r') =>
            match hex_val h1, hex_val h2 with
            | Some x, Some y => String (ascii_of_N (x * 16 + y)) (pct_decode r')
            | _, _ => String c (pct_decode r)
            end
        | _ => String c (pct_decode r)
        end
      else String c (pct_decode r)
  end.

(** UTF-8 decoding with replacement (the decoder of the Encoding standard),
    re-encoded: well-formed sequences are kept and each ill-formed one becomes
    U+FFFD. [needed] bytes are still expected, the next one within
    [lower]..[upper]; [pending] holds the bytes of the sequence so far. *)
Record utf8_state := { needed : nat; lower : N; upper : N; pending : string }.

Definition utf8_init : utf8_state :=
  {| needed := 0; lower := 128; upper := 191; pending := "" |}.

Definition replacement_char : string :=
  String (ascii_of_N 239) (String (ascii_of_N 191) (String (ascii_of_N 189) EmptyString)).

(** A byte read when no sequence is open. *)
Definition utf8_start (b : ascii) : utf8_state * string :=
  let n := N_of_ascii b in
  let open_seq k lo hi :=
    ({| needed := k; lower := lo; upper := hi; pending := String b "" |}, "") in
  if (n <=? 127)%N then (utf8_init, String b "")
  else if ((194 <=? n) && (n <=? 223))%N then open_seq 1%nat 128%N 191%N
  else if ((224 <=? n) && (n <=? 239))%N then
    open_seq 2%nat (if (n =? 224)%N then 160%N else 128%N)
                   (if (n =? 237)%N then 159%N else 191%N)
  else if ((240 <=? n) && (n <=? 244))%N then
    open_seq 3%nat (if (n =? 240)%N then 144%N else 128%N)
                   (if (n =? 244)%N then 143%N else 191%N)
  else (utf8_init, replacement_char).

(** One byte: the next state and the bytes emitted. A byte out of range ends
    the open sequence with U+FFFD and is read again. *)
Definition utf8_step (st : utf8_state) (b : ascii) : utf8_state * string :=
  match needed st with
  | O => utf8_start b
  | S k =>
      let n := N_of_ascii b in
      if ((lower st <=? n) && (n <=? upper st))%N then
        match k with
        | O => (utf8_init, pending st ++ String b "")
        | S _ => ({| needed := k; lower := 128; upper := 191;
                     pending := pending st ++ String b "" |}, "")
        end
      else let '(st', out) := utf8_start b in (st', replacement_char ++ out)
  end.

Fixpoint utf8_run (st : utf8_state) (s : string) : string :=
  match s with
  | EmptyString => match needed st with O => "" | S _ => replacement_char end
  | String b r => let '(st', out) := utf8_step st b in out ++ utf8_run st' r
  end.

Definition utf8_decode (s : string) : string := utf8_run utf8_init s.

(** A name or a value: '+' to space, percent-decoding, UTF-8 decoding. *)
Definition form_decode (s : string) : string :=
  utf8_decode (pct_decode (plus_to_space s)).

(** URLSearchParams(search).get(key): a leading '?' is dropped, the string is
    split on '&', empty pieces are skipped, each piece is split at its first
    '=' (no '=' gives the value ""), name and value are decoded, and the first
    pair with that name wins. *)
Definition params (search : string) : list (string * string) :=
  let s := match search with String "?" r => r | _ => search end in
  flat_map (fun piece =>
              if String.eqb piece "" then []
              else let '(k, v) := split_first "=" piece in
                   [(form_decode k, form_decode (match v with Some v' => v' | None => "" end))])
           (split_on "&" s).

Fixpoint assoc_first (k : string) (l : list (string * string)) : option string :=
  match l with
  | [] => None
  | (k', v) :: r => if String.eqb k k' then Some v else assoc_first k r
  end.

Definition search_get (search : string) (k : string) : option string :=
  assoc_first k (params search).

(** A request URL split into its path and its search part ('?' onwards). *)
Definition url_path (u : string) : string := fst (split_first "?" u).
Definition url_search (u : string) : string :=
  match snd (split_first "?" u) with Some r => String "?" r | None => "" end.

Definition url_param (u : string) (k : string) : option string :=
  search_get (url_search u) k.

(** *** [window.location.search] after [history.replaceState(null, "", u)]

    The URL parser drops leading and trailing C0 controls and spaces and
    removes every TAB, LF and CR; the query runs from the first '?' to the
    first '#' (a '#' before any '?' leaves no query); the bytes of the query
    in the query percent-encode set (controls, space, double quote, number
    sign, apostrophe, less-than, greater-than and the non-ASCII bytes) are
    percent-encoded with upper-case hex digits. [location.search] is a '?'
    followed by the query, or "" when the query is empty or absent. *)
Fixpoint trim_start (s : string) : string :=
  match s with
  | EmptyString => s
  | String c r => if (N_of_ascii c <=? 32)%N then trim_start r else s
  end.

Fixpoint trim_end (s : string) : string :=
  match s with
  | EmptyString => s
  | String c r =>
      let r' := trim_end r in
      if String.eqb r' "" && (N_of_ascii c <=? 32)%N then "" else String c r'
  end.

Definition tab_or_newline (c : ascii) : bool :=
  let n := N_of_ascii c in ((n =? 9) || (n =? 10) || (n =? 13))%N.

Fixpoint remove_tab_newline (s : string) : string :=
  match s with
  | EmptyString => s
  | String c r =>
      if tab_or_newline c then remove_tab_newline r else String c (remove_tab_newline r)
  end.

Definition query_encode_set (c : ascii) : bool :=
  let n := N_of_ascii c in
  ((n <? 33) || (126 <? n) || (n =? 34) || (n =? 35) || (n =? 39) || (n =? 60)
   || (n =? 62))%N.

Definition hex_digit (d : N) : ascii :=
  if (d <? 10)%N then ascii_of_N (48 + d) else ascii_of_N (55 + d).

Fixpoint pct_encode_query (s : string) : string :=
  match s with
  | EmptyString => s
  | String c r =>
      if query_encode_set c then
        String "%" (String (hex_digit (N_of_ascii c / 16))
                      (String (hex_digit (N_of_ascii c mod 16)) (pct_encode_query r)))
      else String c (pct_encode_query r)
  end.

Definition location_search (u : string) : string :=
  let u' := remove_tab_newline (trim_end (trim_start u)) in
  match snd (split_first "?" (fst (split_first "#" u'))) with
  | Some r => let q := pct_encode_query r in if String.eqb q "" then "" else String "?" q
  | None => ""
  end.

End Url.

(** ** API payloads (axios responses) *)
Record sprites := { front_default : jsval }.

(** [sprites = None]: the field is null or undefined, so reading
    [pokemon.sprites.front_default] throws a TypeError. *)
Record pokemon := { name : jsval; sprites_of : option sprites }.

Record resp_data := { count : Z; results : list pokemon }.

(** An axios response: the payload is under [data]. *)
Record response := { data : resp_data }.

(** An axios error; only its [message] is rendered. *)
Record axios_error := { message : string }.

(** The request that [axios(url)] issues: a GET by default. *)
Record request := { method : string; req_url : string }.

Definition axios (url : string) : request := {| method := "GET"; req_url := url |}.

(** ** react-query (v3) *)
Module Query.

(** The options object given to [useQuery(key, fn, options)]. *)
Record config := {
  queryKey : string;
  queryFn : request;
  retry : bool;
  enabled : bool
}.

Inductive status := Idle | Loading | Error | Success.

Record qstate := {
  qstatus : status;
  qdata : option response;
  qerror : option axios_error;
  isFetching : bool
}.

Definition initial : qstate :=
  {| qstatus := Idle; qdata := None; qerror := None; isFetching := false |}.

Inductive action := Fetch | Succeed (r : response) | Fail (e : axios_error).

(** The query reducer of react-query v3: a fetch moves to [loading] (and clears
    the error) only while no data has been received; a failure keeps the data
    already received. *)
Definition reducer (s : qstate) (a : action) : qstate :=
  match a with
  | Fetch =>
      match qdata s with
      | None => {| qstatus := Loading; qdata := None; qerror := None; isFetching := true |}
      | Some d => {| qstatus := qstatus s; qdata := Some d; qerror := qerror s; isFetching := true |}
      end
  | Succeed r => {| qstatus := Success; qdata := Some r; qerror := None; isFetching := false |}
  | Fail e => {| qstatus := Error; qdata := qdata s; qerror := Some e; isFetching := false |}
  end.

Definition run (l : list action) : qstate := fold_left reducer l initial.

(** The result [useQuery] returns: [isLoading], [error], [data]. *)
Record result := { isLoading : bool; error : option axios_error; resdata : option response }.

Definition observe (s : qstate) : result :=
  {| isLoading := match qstatus s with Loading => true | _ => false end;
     error := qerror s; resdata := qdata s |}.

End Query.

(** ** Rendered output *)
#[warnings="-register-all"]
Inductive node :=
| NText (s : string)
| NCard (cname : jsval) (src : jsval) (alt : jsval)
| NGrid (children : list node)
| NPagination (cur : num) (total : jsval)
| NSearchForm.

(** How React renders the falsy left operand of [&&]: numbers are printed,
    [null], [undefined], [false] and "" render nothing. *)
Definition render_falsy (v : jsval) : list node :=
  match v with
  | JNum n => [NText (num_to_str n)]
  | _ => []
  end.

Definition fallback_image : jsval := JStr "/api/media/?l=empty-url.jpg".

(** One card of the grid; [None] when [pokemon.sprites.front_default] throws. *)
Definition card (p : pokemon) : option node :=
  match sprites_of p with
  | None => None
  | Some sp =>
      Some (NCard (name p)
                  (if nullish (front_default sp) then fallback_image else front_default sp)
                  (if nullish (name p) then JStr "empty" else name p))
  end.

Fixpoint map_cards (l : list pokemon) : option (list node) :=
  match l with
  | [] => Some []
  | p :: r =>
      match card p, map_cards r with
      | Some c, Some cs => Some (c :: cs)
      | _, _ => None
      end
  end.

Record paginationData := { pd_currentPage : num; pd_totalPages : jsval }.

(** ui/ItemsTPL.js; ui/Items.js renders the same markup inline.
    [None]: the render throws. *)
Definition ItemsTPL (isLoading : bool) (error : option axios_error)
  (response : option response) (itemCount : jsval) (pd : paginationData)
  : option (list node) :=
  let loading := if isLoading then [NText "Fetching data..."] else [] in
  let err := match error with Some e => [NText (message e)] | None => [] end in
  let grid := match response with
              | Some r => option_map NGrid (map_cards (results (data r)))
              | None => Some (NGrid [])
              end in
  let pagination := if truthy itemCount
                    then [NPagination (pd_currentPage pd) (pd_totalPages pd)]
                    else render_falsy itemCount in
  match grid with
  | Some g => Some (loading ++ err ++ [g] ++ pagination)%list
  | None => None
  end.

(** [Math.ceil(c / d)] for a positive integer [d]. *)
Definition ceil_div (c d : Z) : Z := - ((- c) / d).

(** The address bar and the document title. *)
Record browser := { url : string; title : string }.

(** Number(v) for the non-string values this program passes around. *)
Definition num_of (v : jsval) : num :=
  match v with
  | JNum n => n
  | JNull => Num 0
  | JBool b => Num (if b then 1 else 0)
  | _ => NaN
  end.

Definition num_add (a b : num) : num :=
  match a, b with Num x, Num y => Num (x + y) | _, _ => NaN end.

(** The binary [+]: concatenation when either side is a string, numeric
    addition otherwise. *)
Definition js_plus (a b : jsval) : jsval :=
  match a, b with
  | JStr _, _ | _, JStr _ => JStr (to_str a ++ to_str b)
  | _, _ => JNum (num_add (num_of a) (num_of b))
  end.

(** The pair of states [currentPage] / [currentOffset] kept by [Items] and by
    [App]. *)
Record pager := { currentPage : num; currentOffset : num }.

(** ** ui/Items.js: the paginated list *)
Module Items.

Definition itemsPerPage : Z := 18.

(** The [useState] initialisers; the component destructures only
    [openedPage] from its props. *)
Definition init (p : props) : pager :=
  let openedPage := props_get "openedPage" p in
  {| currentPage := if negb (truthy openedPage) then Num 1 else parseInt openedPage;
     currentOffset :=
       if negb (truthy openedPage) then Num 0
       else num_sub (num_mul (parseInt openedPage) (Num itemsPerPage)) (Num itemsPerPage) |}.

Definition query (st : pager) : Query.config :=
  {| Query.queryKey := "pokelist-page-" ++ num_to_str (currentPage st);
     Query.queryFn :=
       axios ("/api/pokemon-detailed/?offset=" ++ num_to_str (currentOffset st)
              ++ "&limit=" ++ Z_to_str itemsPerPage);
     Query.retry := false;
     Query.enabled := true |}.

(** [onPageChange(page)]: both states, the address bar and the title are
    set (the trailing [refetch()] acts on the query, not on this state). *)
Definition onPageChange (page : Z) (st : pager) (b : browser) : pager * browser :=
  ({| currentPage := Num page;
      currentOffset := Num (page * itemsPerPage - itemsPerPage) |},
   {| url := "/?page=" ++ Z_to_str page;
      title := "Pokedex | Page " ++ Z_to_str page |}).

(** A render: the address bar effect of lines 53-56, then the markup. *)
Definition render (st : pager) (r : Query.result) (b : browser)
  : option (list node) * browser :=
  let itemCount := match Query.resdata r with
                   | Some resp => JNum (Num (count (data resp)))
                   | None => JNull end in
  let totalPages := match Query.resdata r with
                    | Some resp => JNum (Num (ceil_div (count (data resp)) itemsPerPage))
                    | None => JNull end in
  let b' := if num_strict_eq (currentPage st) (Num 1)
            then {| url := "/"; title := "Pokedex" |} else b in
  (ItemsTPL (Query.isLoading r) (Query.error r) (Query.resdata r) itemCount
            {| pd_currentPage := currentPage st; pd_totalPages := totalPages |}, b').

End Items.

(** ** ui/FoundItems.js: one page of search results *)
Module FoundItems.

(** [onPageChange(page)] writes the page and offset states owned by [App]. *)
Definition onPageChange (p : props) (page : Z) (app : pager) (b : browser)
  : pager * browser :=
  let itemsPerPage := num_of (props_get "itemsPerPage" p) in
  let searchQuery := props_get "searchQuery" p in
  ({| currentPage := Num page;
      currentOffset := num_sub (num_mul (Num page) itemsPerPage) itemsPerPage |},
   {| url := "/?search=" ++ to_str searchQuery ++ "&page=" ++ Z_to_str page;
      title := "Pokedex | Page " ++ Z_to_str page |}).

Definition render (p : props) (searchData : response) (b : browser)
  : option (list node) * browser :=
  let itemsPerPage := num_of (props_get "itemsPerPage" p) in
  let searchQuery := props_get "searchQuery" p in
  let currentPage := props_get "currentPage" p in
  let itemCount := count (data searchData) in
  let b' := if truthy searchQuery &&
               (match currentPage with JNum n => num_strict_eq n (Num 1) | _ => false end
                || negb (truthy currentPage))
            then {| url := "/?search=" ++ to_str searchQuery; title := title b |}
            else b in
  let totalPages := match itemsPerPage with
                    | Num d => JNum (Num (ceil_div itemCount d))
                    | NaN => JNum NaN end in
  (ItemsTPL false None (Some searchData) (JNum (Num itemCount))
            {| pd_currentPage := num_of currentPage; pd_totalPages := totalPages |}, b').

End FoundItems.

(** ** ui/SearchForm.js: the search box and the search query *)
Module SearchForm.

(** [input] and [query] states; [None] is [null]. *)
Record state := { input : option string; query : option string }.

Definition init : state := {| input := None; query := None |}.

Definition jsopt (o : option string) : jsval :=
  match o with Some s => JStr s | None => JNull end.

(** [onChange]: the text field's value. *)
Definition onChange (v : string) (st : state) : state :=
  {| input := Some v; query := query st |}.

(** [handleSearchClick], for the case mapping [toLowerCase] of
    String.prototype.toLowerCase. *)
Definition handleSearchClick (toLowerCase : string -> string) (st : state) : state :=
  if truthy (jsopt (input st)) then
    let value := toLowerCase (match input st with Some s => s | None => "" end) in
    if negb (match query st with Some q => String.eqb q value | None => false end)
    then {| input := input st; query := Some value |}
    else st
  else {| input := input st; query := None |}.

Definition config (p : props) (st : state) : Query.config :=
  let currentOffset := props_get "currentOffset" p in
  let itemsPerPage := props_get "itemsPerPage" p in
  let q := jsopt (query st) in
  {| Query.queryKey := "searching-" ++ to_str (js_plus q currentOffset);
     Query.queryFn :=
       axios ("/api/search/pokemon/?q=" ++ to_str q ++ "&offset=" ++ to_str currentOffset
              ++ "&limit=" ++ to_str itemsPerPage);
     Query.retry := false;
     Query.enabled := truthy q |}.

(** What the [useEffect] does to [App]'s [foundData]. *)
Inductive found_update := SetFound (r : response) | SetNull | Keep.

Definition effect (r : Query.result) : found_update :=
  match Query.resdata r with
  | Some d =>
      if negb (Query.isLoading r) && negb (match Query.error r with Some _ => true | None => false end)
      then SetFound d else Keep
  | None => SetNull
  end.

(** The markup: the form only. *)
Definition render (st : state) : list node := [NSearchForm].

End SearchForm.

(** ** App.js: the page *)
Module App.

Definition itemsPerPage : Z := 18.

Record state := {
  openedPage : jsval;
  openedQuery : jsval;
  searchQuery : jsval;
  foundData : option response;
  app_pager : pager
}.

(** [urlParams.get(k) ? urlParams.get(k) : null] on [window.location.search]. *)
Definition get_or_null (search : string) (k : string) : jsval :=
  match Url.search_get search k with
  | Some v => if truthy (JStr v) then JStr v else JNull
  | None => JNull
  end.

(** First render: the [useState] initialisers. *)
Definition init (search : string) : state :=
  let openedPage := get_or_null search "page" in
  {| openedPage := openedPage;
     openedQuery := get_or_null search "search";
     searchQuery := JNull;
     foundData := None;
     app_pager :=
       {| currentPage := if negb (truthy openedPage) then Num 1 else parseInt openedPage;
          currentOffset :=
            if negb (truthy openedPage) then Num 0
            else num_sub (num_mul (parseInt openedPage) (Num itemsPerPage)) (Num itemsPerPage) |} |}.

(** The mount effect [setSearchQuery(openedQuery)]. *)
Definition mount_effect (st : state) : state :=
  {| openedPage := openedPage st; openedQuery := openedQuery st;
     searchQuery := openedQuery st; foundData := foundData st; app_pager := app_pager st |}.

Definition load (search : string) : state := mount_effect (init search).

(** The props of the JSX elements App renders. *)
Definition search_props (st : state) : props :=
  [("setFoundData", JObj "setFoundData");
   ("setSearchQuery", JObj "setSearchQuery");
   ("itemsPerPage", JNum (Num itemsPerPage));
   ("currentOffset", JNum (currentOffset (app_pager st)));
   ("searchQuery", searchQuery st)].

Definition found_props (st : state) : props :=
  [("searchData", JObj "foundData");
   ("openedPage", openedPage st);
   ("itemsPerPage", JNum (Num itemsPerPage));
   ("searchQuery", searchQuery st);
   ("currentPage", JNum (currentPage (app_pager st)));
   ("setCurrentPage", JObj "setCurrentPage");
   ("setOffset", JObj "setOffset")].

Definition items_props (st : state) : props :=
  [("itemsPerPage", JNum (Num itemsPerPage));
   ("currentOffset", JNum (currentOffset (app_pager st)));
   ("currentPage", JNum (currentPage (app_pager st)));
   ("setCurrentPage", JObj "setCurrentPage");
   ("setOffset", JObj "setOffset")].

(** The results area (lines 309-335). *)
Inductive area := NothingFound | FoundItemsView (searchData : response) | ItemsView.

Definition results_area (foundData : option response) : area :=
  match foundData with
  | Some fd => if Z.eqb (count (data fd)) 0 then NothingFound else FoundItemsView fd
  | None => ItemsView
  end.

(** The nodes of the page (the static filter and sorting markup left out):
    the search form, then the results area. [items] and [itemsq] are the
    state and query result of the mounted [Items]. *)
Definition render (st : state) (sf : SearchForm.state) (items : pager)
  (itemsq : Query.result) (b : browser) : option (list node) * browser :=
  let area_out :=
    match results_area (foundData st) with
    | NothingFound => (Some [NText "Nothing was found"], b)
    | FoundItemsView d => FoundItems.render (found_props st) d b
    | ItemsView => Items.render items itemsq b
    end in
  (option_map (fun ns => SearchForm.render sf ++ ns)%list (fst area_out), snd area_out).

(** Every state the page can reach from loading [search]: page changes in the
    list and in the search results, remounts of [Items] (when the results area
    switches back to it), and updates of [searchQuery] and [foundData] by the
    effects. *)
Record page := {
  app : state;
  items : pager;
  browser_of : browser
}.

Definition load_page (search : string) : page :=
  let st := load search in
  {| app := st; items := Items.init (items_props st);
     browser_of := {| url := "/" ++ search; title := "Pokedex" |} |}.

Inductive reachable (search : string) : page -> Prop :=
| reach_load : reachable search (load_page search)
| reach_items_page : forall pg n,
    reachable search pg ->
    reachable search
      {| app := app pg;
         items := fst (Items.onPageChange n (items pg) (browser_of pg));
         browser_of := snd (Items.onPageChange n (items pg) (browser_of pg)) |}
| reach_found_page : forall pg n,
    reachable search pg ->
    let r := FoundItems.onPageChange (found_props (app pg)) n (app_pager (app pg)) (browser_of pg) in
    reachable search
      {| app := {| openedPage := openedPage (app pg); openedQuery := openedQuery (app pg);
                   searchQuery := searchQuery (app pg); foundData := foundData (app pg);
                   app_pager := fst r |};
         items := items pg; browser_of := snd r |}
| reach_items_remount : forall pg,
    reachable search pg ->
    reachable search
      {| app := app pg; items := Items.init (items_props (app pg)); browser_of := browser_of pg |}
| reach_effects : forall pg sq fd,
    reachable search pg ->
    reachable search
      {| app := {| openedPage := openedPage (app pg); openedQuery := openedQuery (app pg);
                   searchQuery := sq; foundData := fd; app_pager := app_pager (app pg) |};
         items := items pg; browser_of := browser_of pg |}.

End App.

(** Strings of decimal digits, as [parseInt] reads them. *)
Fixpoint all_digits (s : string) : bool :=
  match s with
  | EmptyString => true
  | String c r =>
      match digit_val 10 c with Some _ => all_digits r | None => false end
  end.

(** * Properties *)

(** ** Helper lemmas *)

Definition pager_inv (p : pager) : Prop :=
  currentOffset p = num_mul (num_sub (currentPage p) (Num 1)) (Num 18).

Lemma offset_formula (x : num) :
  num_sub (num_mul x (Num 18)) (Num 18) = num_mul (num_sub x (Num 1)) (Num 18).
Proof. destruct x as [z|]; simpl; [f_equal; lia | reflexivity]. Qed.

Lemma Items_init_inv (p : props) : pager_inv (Items.init p).
Proof.
  unfold pager_inv, Items.init; simpl.
  destruct (truthy (props_get "openedPage" p)); simpl;
    [apply offset_formula | reflexivity].
Qed.

Lemma App_init_inv (search : string) : pager_inv (App.app_pager (App.load search)).
Proof.
  unfold pager_inv; simpl.
  destruct (truthy (App.get_or_null search "page")); simpl;
    [apply offset_formula | reflexivity].
Qed.

(** App never hands [openedPage] to [Items]. *)
Lemma Items_init_from_App (st : App.state) :
  Items.init (App.items_props st) = {| currentPage := Num 1; currentOffset := Num 0 |}.
Proof. reflexivity. Qed.

Lemma reachable_invs (search : string) (pg : App.page) :
  App.reachable search pg ->
  pager_inv (App.app_pager (App.app pg)) /\ pager_inv (App.items pg) /\
  exists z, currentOffset (App.items pg) = Num z.
Proof.
  induction 1 as [| pg n _ IH | pg n _ IH | pg _ IH | pg sq fd _ IH]; simpl.
  - split; [apply App_init_inv|]. rewrite Items_init_from_App.
    split; [reflexivity | eauto].
  - destruct IH as (H1 & _ & _). split; [exact H1|].
    unfold pager_inv, Items.itemsPerPage, App.itemsPerPage; simpl. split; [f_equal; lia | eauto].
  - destruct IH as (_ & H2 & H3). split; [|auto].
    unfold pager_inv, Items.itemsPerPage, App.itemsPerPage; simpl. f_equal; lia.
  - destruct IH as (H1 & _ & _). rewrite Items_init_from_App.
    split; [exact H1|]. split; [reflexivity | eauto].
  - exact IH.
Qed.

Fixpoint has_char (c : ascii) (s : string) : bool :=
  match s with
  | EmptyString => false
  | String x r => Ascii.eqb x c || has_char c r
  end.

Lemma digit_char_not (c : ascii) (d : N) :
  (d < 10)%N -> (N_of_ascii c < 48)%N -> Ascii.eqb (digit_char d) c = false.
Proof.
  intros Hd Hc. destruct (Ascii.eqb_spec (digit_char d) c) as [E|E]; [|reflexivity].
  exfalso. unfold digit_char in E. apply (f_equal N_of_ascii) in E.
  rewrite N_ascii_embedding in E by lia. lia.
Qed.

Lemma N_digits_no_char (c : ascii) (f : nat) :
  (N_of_ascii c < 48)%N ->
  forall n acc, has_char c acc = false -> has_char c (N_digits f n acc) = false.
Proof.
  intros Hc. induction f as [|f IH]; intros n acc Hacc; simpl; [exact Hacc|].
  assert (Hs : has_char c (String (digit_char (n mod 10)) acc) = false).
  { simpl. rewrite digit_char_not; [exact Hacc | apply N.mod_lt; discriminate | exact Hc]. }
  destruct (n <? 10)%N; [exact Hs | apply IH, Hs].
Qed.

Lemma Z_to_str_no_amp (z : Z) : has_char "&" (Z_to_str z) = false.
Proof.
  unfold Z_to_str, N_to_str. destruct (z <? 0).
  - cbn [has_char]. apply orb_false_iff.
    split; [reflexivity | apply N_digits_no_char; reflexivity].
  - apply N_digits_no_char; reflexivity.
Qed.

Lemma split_on_app (c : ascii) (a b : string) :
  has_char c a = false ->
  Url.split_on c (a ++ String c b) = a :: Url.split_on c b.
Proof.
  induction a as [|x a IH]; simpl; intros H.
  - rewrite Ascii.eqb_refl. reflexivity.
  - apply orb_false_iff in H as [H1 H2]. rewrite H1, IH by exact H2. reflexivity.
Qed.

Lemma split_first_app (c : ascii) (a b : string) :
  has_char c a = false -> Url.split_first c (a ++ String c b) = (a, Some b).
Proof.
  induction a as [|x a IH]; simpl; intros H.
  - rewrite Ascii.eqb_refl. reflexivity.
  - apply orb_false_iff in H as [H1 H2]. rewrite H1, IH by exact H2. reflexivity.
Qed.

Lemma string_app_assoc (a b c : string) : (a ++ b) ++ c = a ++ (b ++ c).
Proof. induction a as [|x a IH]; simpl; [reflexivity | now rewrite IH]. Qed.

(** ** Decoding plain strings *)

Fixpoint str_all (P : ascii -> bool) (s : string) : bool :=
  match s with
  | EmptyString => true
  | String c r => P c && str_all P r
  end.

Lemma str_all_app (P : ascii -> bool) (a b : string) :
  str_all P (a ++ b) = str_all P a && str_all P b.
Proof. induction a as [|c a IH]; simpl; [reflexivity | rewrite IH, andb_assoc; reflexivity]. Qed.

Lemma has_char_str_all (c : ascii) (s : string) :
  has_char c s = negb (str_all (fun x => negb (Ascii.eqb x c)) s).
Proof.
  induction s as [|x s IH]; simpl; [reflexivity|].
  rewrite IH, negb_andb, negb_involutive. reflexivity.
Qed.

Ltac ten_digits :=
  let d := fresh "d" in let Hd := fresh "Hd" in let Hc := fresh "Hc" in
  intros d Hd;
  assert (Hc : d = 0%N \/ d = 1%N \/ d = 2%N \/ d = 3%N \/ d = 4%N \/ d = 5%N \/
               d = 6%N \/ d = 7%N \/ d = 8%N \/ d = 9%N) by lia;
  repeat (destruct Hc as [Hc|Hc]; [subst d; reflexivity|]); subst d; reflexivity.

Lemma N_digits_all (P : ascii -> bool) :
  (forall d, (d < 10)%N -> P (digit_char d) = true) ->
  forall f n acc, str_all P acc = true -> str_all P (N_digits f n acc) = true.
Proof.
  intros HP f. induction f as [|f IH]; intros n acc Hacc; simpl; [exact Hacc|].
  assert (Hs : str_all P (String (digit_char (n mod 10)) acc) = true).
  { simpl. rewrite HP, Hacc; [reflexivity | apply N.mod_lt; discriminate]. }
  destruct (n <? 10)%N; [exact Hs | apply IH, Hs].
Qed.

Lemma Z_to_str_all (P : ascii -> bool) (z : Z) :
  P "-"%char = true -> (forall d, (d < 10)%N -> P (digit_char d) = true) ->
  str_all P (Z_to_str z) = true.
Proof.
  intros Hm Hd. unfold Z_to_str, N_to_str. destruct (z <? 0).
  - cbn [str_all]. rewrite Hm. apply N_digits_all; [exact Hd | reflexivity].
  - apply N_digits_all; [exact Hd | reflexivity].
Qed.

Lemma plus_to_space_id (s : string) : has_char "+" s = false -> Url.plus_to_space s = s.
Proof.
  induction s as [|c s IH]; simpl; [reflexivity|].
  intros H. apply orb_false_iff in H as [H1 H2]. rewrite H1, IH by exact H2. reflexivity.
Qed.

Lemma pct_decode_id (s : string) : has_char "%" s = false -> Url.pct_decode s = s.
Proof.
  induction s as [|c s IH]; simpl; [reflexivity|].
  intros H. apply orb_false_iff in H as [H1 H2]. rewrite H1, IH by exact H2. reflexivity.
Qed.

Definition ascii7 (c : ascii) : bool := (N_of_ascii c <? 128)%N.

Lemma utf8_decode_ascii (s : string) : str_all ascii7 s = true -> Url.utf8_decode s = s.
Proof.
  unfold Url.utf8_decode. induction s as [|c s IH]; [reflexivity|].
  cbn [str_all]. intros H. apply andb_true_iff in H as [H1 H2].
  cbn [Url.utf8_run]. unfold Url.utf8_step. cbn [Url.needed Url.utf8_init].
  unfold Url.utf8_start, ascii7 in *. cbv zeta.
  replace (N_of_ascii c <=? 127)%N with true
    by (symmetry; apply N.leb_le; apply N.ltb_lt in H1; lia).
  cbn [String.append]. rewrite IH by exact H2. reflexivity.
Qed.

Lemma form_decode_plain (s : string) :
  has_char "+" s = false -> has_char "%" s = false -> str_all ascii7 s = true ->
  Url.form_decode s = s.
Proof.
  intros H1 H2 H3. unfold Url.form_decode.
  rewrite plus_to_space_id, pct_decode_id, utf8_decode_ascii by assumption. reflexivity.
Qed.

Lemma form_decode_Z_to_str (z : Z) : Url.form_decode (Z_to_str z) = Z_to_str z.
Proof.
  apply form_decode_plain.
  - rewrite has_char_str_all, Z_to_str_all; [reflexivity | reflexivity | ten_digits].
  - rewrite has_char_str_all, Z_to_str_all; [reflexivity | reflexivity | ten_digits].
  - apply Z_to_str_all; [reflexivity | ten_digits].
Qed.

Lemma list_url_params (z : Z) :
  let u := "/api/pokemon-detailed/?offset=" ++ Z_to_str z ++ "&limit=18" in
  Url.url_path u = "/api/pokemon-detailed/" /\
  Url.url_param u "offset" = Some (Z_to_str z) /\
  Url.url_param u "limit" = Some "18".
Proof.
  cbv zeta. pose proof (Z_to_str_no_amp z) as Hz. pose proof (form_decode_Z_to_str z) as Hd.
  remember (Z_to_str z) as zs eqn:Ezs. clear Ezs.
  assert (Hu : "/api/pokemon-detailed/?offset=" ++ zs ++ "&limit=18"
               = "/api/pokemon-detailed/" ++ String "?" (("offset=" ++ zs) ++ String "&" "limit=18"))
    by (rewrite string_app_assoc; reflexivity).
  rewrite Hu. unfold Url.url_param, Url.url_search, Url.url_path.
  rewrite split_first_app by reflexivity. cbn [fst snd].
  unfold Url.search_get, Url.params.
  rewrite split_on_app by (simpl; exact Hz).
  simpl. rewrite Hd. repeat split.
Qed.

(** The cards of a successful render, item by item. *)
Definition card_shows (p : pokemon) (c : node) : Prop :=
  exists sp src alt,
    sprites_of p = Some sp /\ c = NCard (name p) src alt /\
    ((front_default sp = JNull \/ front_default sp = JUndefined) ->
       src = JStr "/api/media/?l=empty-url.jpg") /\
    (front_default sp <> JNull -> front_default sp <> JUndefined ->
       src = front_default sp).

Lemma map_cards_shows (l : list pokemon) (cs : list node) :
  map_cards l = Some cs -> Forall2 card_shows l cs.
Proof.
  revert cs; induction l as [|p l IH]; simpl; intros cs H.
  - injection H as <-. constructor.
  - unfold card in H. destruct (sprites_of p) as [sp|] eqn:Hsp; [|discriminate].
    destruct (map_cards l) as [cs'|] eqn:Hl; [|discriminate].
    injection H as <-. constructor; [|apply IH; reflexivity].
    eexists sp, _, _. split; [exact Hsp|]. split; [reflexivity|].
    split.
    + intros [E|E]; rewrite E; reflexivity.
    + intros N1 N2. destruct (front_default sp); try reflexivity; congruence.
Qed.

Lemma ItemsTPL_shape (isLoading : bool) (err : option axios_error)
  (resp : option response) (itemCount : jsval) (pd : paginationData) (ns : list node) :
  ItemsTPL isLoading err resp itemCount pd = Some ns ->
  exists cs rest,
    ns = ((if isLoading then [NText "Fetching data..."] else [])
          ++ (match err with Some e => [NText (message e)] | None => [] end)
          ++ NGrid cs :: rest)%list /\
    Forall2 card_shows (match resp with Some r => results (data r) | None => [] end) cs.
Proof.
  unfold ItemsTPL. intros H.
  destruct resp as [r|].
  - destruct (map_cards (results (data r))) as [cs|] eqn:Hm; simpl in H; [|discriminate].
    injection H as <-. exists cs; eexists. split; [reflexivity|]. apply map_cards_shows, Hm.
  - injection H as <-. exists []; eexists. split; [reflexivity | constructor].
Qed.

Lemma run_loading_no_data (acts : list Query.action) :
  Query.qstatus (Query.run acts) = Query.Loading -> Query.qdata (Query.run acts) = None.
Proof.
  unfold Query.run.
  assert (G : forall l s, (Query.qstatus s = Query.Loading -> Query.qdata s = None) ->
            Query.qstatus (fold_left Query.reducer l s) = Query.Loading ->
            Query.qdata (fold_left Query.reducer l s) = None).
  { induction l as [|a l IH]; simpl; intros s Hs; [exact Hs|].
    apply IH. destruct a as [| r | e]; simpl.
    - destruct (Query.qdata s) as [d|] eqn:Hd; simpl; [|reflexivity].
      intros E. exact (Hs E).
    - discriminate.
    - discriminate. }
  apply G. simpl. reflexivity.
Qed.

(** ** C1 *)



(** ** C4 *)

(** C4: in every reachable state the list request is a GET to
    /api/pokemon-detailed/ whose [offset] parameter is the Items component's
    current offset, an integer, and whose [limit] parameter is 18. *)
Theorem list_request_params (search : string) (pg : App.page) :
  App.reachable search pg ->
  exists z,
    currentOffset (App.items pg) = Num z /\
    method (Query.queryFn (Items.query (App.items pg))) = "GET" /\
    Url.url_path (req_url (Query.queryFn (Items.query (App.items pg))))
      = "/api/pokemon-detailed/" /\
    Url.url_param (req_url (Query.queryFn (Items.query (App.items pg)))) "offset"
      = Some (Z_to_str z) /\
    Url.url_param (req_url (Query.queryFn (Items.query (App.items pg)))) "limit"
      = Some "18".
Proof.
  intros H. destruct (reachable_invs search pg H) as (_ & _ & z & Hz).
  exists z. split; [exact Hz|]. split; [reflexivity|].
  unfold Items.query. cbn [Query.queryFn req_url axios]. rewrite Hz.
  exact (list_url_params z).
Qed.

Lemma list_request_params_witness :
  exists z,
    currentOffset (App.items (App.load_page "?page=2")) = Num z /\
    method (Query.queryFn (Items.query (App.items (App.load_page "?page=2")))) = "GET" /\
    Url.url_path (req_url (Query.queryFn (Items.query (App.items (App.load_page "?page=2")))))
      = "/api/pokemon-detailed/" /\
    Url.url_param (req_url (Query.queryFn (Items.query (App.items (App.load_page "?page=2"))))) "offset"
      = Some (Z_to_str z) /\
    Url.url_param (req_url (Query.queryFn (Items.query (App.items (App.load_page "?page=2"))))) "limit"
      = Some "18".
Proof. apply (list_request_params "?page=2"). apply App.reach_load. Defined.

(** ** C6 *)

(** C6: in every rendered list (a render of ItemsTPL that does not throw,
    with a response), the grid holds one card per returned item; a card's
    image source is /api/media/?l=empty-url.jpg when the item's
    sprites.front_default is null or undefined, and sprites.front_default
    itself otherwise. *)
Theorem card_image_source (isLoading : bool) (err : option axios_error)
  (resp : response) (itemCount : jsval) (pd : paginationData) (ns : list node) :
  ItemsTPL isLoading err (Some resp) itemCount pd = Some ns ->
  exists cs, In (NGrid cs) ns /\ Forall2 card_shows (results (data resp)) cs.
Proof.
  intros H. destruct (ItemsTPL_shape _ _ _ _ _ _ H) as (cs & rest & -> & Hcs).
  exists cs. split; [|exact Hcs].
  apply in_or_app; right. apply in_or_app; right. left; reflexivity.
Qed.

Definition sample_items : list pokemon :=
  [{| name := JStr "bulbasaur";
      sprites_of := Some {| front_default := JStr "https://img/1.png" |} |};
   {| name := JStr "missingno"; sprites_of := Some {| front_default := JNull |} |}].

Definition sample_response : response :=
  {| data := {| count := 2; results := sample_items |} |}.

Lemma card_image_source_witness :
  exists ns, ItemsTPL false None (Some sample_response) (JNum (Num 2))
               {| pd_currentPage := Num 1; pd_totalPages := JNum (Num 1) |} = Some ns /\
  exists cs, In (NGrid cs) ns /\ Forall2 card_shows (results (data sample_response)) cs.
Proof.
  eexists. split; [reflexivity|].
  apply (card_image_source false None sample_response (JNum (Num 2))
           {| pd_currentPage := Num 1; pd_totalPages := JNum (Num 1) |}).
  reflexivity.
Defined.

(** ** C8 *)

(** C8 (defect): the search query a click stores is the lowercased input,
    whatever case mapping [toLowerCase] applies, when the input is non-empty;
    a click whose lowercased input equals the current query leaves the state
    untouched (no new query key, no new request); an empty input resets the
    query to null and disables the search fetch. But the [q] value the
    endpoint receives is not always that query: it is interpolated into the
    URL without encoding, so after typing "Mr&Mime" the query is "mr&mime"
    and the request's [q] parameter is "mr". *)
Theorem search_click_query :
  (forall (toLowerCase : string -> string) (st : SearchForm.state) (p : props),
     (forall s, SearchForm.input st = Some s -> s <> "" ->
        SearchForm.query (SearchForm.handleSearchClick toLowerCase st)
        = Some (toLowerCase s)) /\
     (forall s, SearchForm.input st = Some s -> s <> "" ->
        SearchForm.query st = Some (toLowerCase s) ->
        SearchForm.handleSearchClick toLowerCase st = st) /\
     ((SearchForm.input st = None \/ SearchForm.input st = Some "") ->
        SearchForm.query (SearchForm.handleSearchClick toLowerCase st) = None /\
        Query.enabled (SearchForm.config p (SearchForm.handleSearchClick toLowerCase st))
        = false)) /\
  (let sf := SearchForm.handleSearchClick ascii_toLowerCase
               (SearchForm.onChange "Mr&Mime" SearchForm.init) in
   let req := Query.queryFn (SearchForm.config (App.search_props (App.load "")) sf) in
   SearchForm.query sf = Some "mr&mime" /\
   Query.enabled (SearchForm.config (App.search_props (App.load "")) sf) = true /\
   Url.url_param (req_url req) "q" = Some "mr").
Proof.
  split; [|cbv zeta; repeat split].
  intros toLowerCase [input query] p. unfold SearchForm.handleSearchClick; simpl.
  split; [|split].
  - intros s -> Hne. simpl. rewrite (proj2 (String.eqb_neq s "") Hne). simpl.
    destruct query as [q|]; simpl; [|reflexivity].
    destruct (String.eqb_spec q (toLowerCase s)) as [->|]; reflexivity.
  - intros s -> Hne ->. simpl. rewrite (proj2 (String.eqb_neq s "") Hne).
    simpl. rewrite String.eqb_refl. reflexivity.
  - intros [-> | ->]; split; reflexivity.
Qed.

Lemma search_click_query_witness :
  SearchForm.query
    (SearchForm.handleSearchClick ascii_toLowerCase
       (SearchForm.onChange "Pikachu" SearchForm.init))
    = Some "pikachu" /\
  SearchForm.handleSearchClick ascii_toLowerCase
    {| SearchForm.input := Some "PIKA"; SearchForm.query := Some "pika" |}
    = {| SearchForm.input := Some "PIKA"; SearchForm.query := Some "pika" |}.
Proof.
  split.
  - apply (proj1 (proj1 search_click_query ascii_toLowerCase
             (SearchForm.onChange "Pikachu" SearchForm.init) []) "Pikachu");
      [reflexivity | discriminate].
  - apply (proj1 (proj2 (proj1 search_click_query ascii_toLowerCase
             {| SearchForm.input := Some "PIKA"; SearchForm.query := Some "pika" |} []))
             "PIKA"); [reflexivity | discriminate | reflexivity].
Defined.

(** ** C9 *)

(** C9: the results area shows exactly one of three things: "Nothing was
    found" for search data with count 0, the search results for search data
    with a positive count, and the paginated list without search data. *)
Theorem results_area_cases (fd : option response) :
  (App.results_area fd = App.NothingFound <->
     exists d, fd = Some d /\ count (data d) = 0) /\
  (forall d, fd = Some d -> count (data d) > 0 -> App.results_area fd = App.FoundItemsView d) /\
  (fd = None -> App.results_area fd = App.ItemsView) /\
  (forall st sf items q b,
     App.foundData st = fd ->
     App.render st sf items q b =
       let area_out :=
         match App.results_area fd with
         | App.NothingFound => (Some [NText "Nothing was found"], b)
         | App.FoundItemsView d => FoundItems.render (App.found_props st) d b
         | App.ItemsView => Items.render items q b
         end in
       (option_map (fun ns => [NSearchForm] ++ ns)%list (fst area_out), snd area_out)).
Proof.
  unfold App.results_area. split; [|split; [|split]].
  - destruct fd as [d|]; split.
    + destruct (Z.eqb_spec (count (data d)) 0); [eauto | discriminate].
    + intros (d' & E & Hc). injection E as <-. rewrite Hc. reflexivity.
    + discriminate.
    + intros (d' & E & _). discriminate.
  - intros d -> Hc. destruct (Z.eqb_spec (count (data d)) 0); [lia | reflexivity].
  - intros ->. reflexivity.
  - intros st sf items q b <-. reflexivity.
Qed.

Lemma results_area_cases_witness :
  App.results_area (Some sample_response) = App.FoundItemsView sample_response /\
  App.results_area None = App.ItemsView.
Proof.
  split.
  - apply (proj1 (proj2 (results_area_cases (Some sample_response))) sample_response);
      [reflexivity | simpl; lia].
  - apply (proj1 (proj2 (proj2 (results_area_cases None)))). reflexivity.
Defined.

(** ** C10 *)

(** C10: a render of the list with currentPage 1 replaces the address bar
    with "/" and sets the title to "Pokedex". *)
Theorem page_one_resets_url (st : pager) (r : Query.result) (b : browser) :
  currentPage st = Num 1 ->
  snd (Items.render st r b) = {| url := "/"; title := "Pokedex" |}.
Proof. intros H. unfold Items.render. simpl. rewrite H. reflexivity. Qed.

Lemma page_one_resets_url_witness :
  snd (Items.render {| currentPage := Num 1; currentOffset := Num 0 |}
         (Query.observe Query.initial) {| url := "/?page=1&search=x"; title := "Pokedex | Page 1" |})
    = {| url := "/"; title := "Pokedex" |}.
Proof. apply page_one_resets_url. reflexivity. Defined.

(** ** C7 *)

Definition fetch_error : axios_error :=
  {| message := "Request failed with status code 500" |}.

Definition list_page_2 : pager := {| currentPage := Num 2; currentOffset := Num 18 |}.

Definition some_browser : browser := {| url := "/?page=2"; title := "Pokedex | Page 2" |}.

(** C7 fails as stated: after a refetch that fails, the list shows the error
    message and the cards together, and while a refetch of cached data is in
    flight no loading indicator is shown. *)
Lemma list_view_counterexample :
  let failed := Query.run [Query.Fetch; Query.Succeed sample_response;
                           Query.Fetch; Query.Fail fetch_error] in
  let inflight := Query.run [Query.Fetch; Query.Succeed sample_response; Query.Fetch] in
  exists ns1 ns2 b1 b2,
    Items.render list_page_2 (Query.observe failed) some_browser = (Some ns1, b1) /\
    Query.qerror failed = Some fetch_error /\
    In (NText (message fetch_error)) ns1 /\
    (exists cs, In (NGrid cs) ns1 /\ cs <> []) /\
    Query.isFetching inflight = true /\
    Items.render list_page_2 (Query.observe inflight) some_browser = (Some ns2, b2) /\
    ~ In (NText "Fetching data...") ns2.
Proof.
  cbv zeta. do 4 eexists.
  split; [reflexivity|]. split; [reflexivity|].
  split; [simpl; tauto|].
  split; [eexists; split; [simpl; tauto | discriminate]|].
  split; [reflexivity|]. split; [reflexivity|].
  simpl. intuition discriminate.
Qed.

(** C7 (as the code has it): the list view is three independent blocks: the
    loading indicator exactly when react-query reports [isLoading], which
    only happens while no data has been received; the error message whenever
    the query holds an error; and a grid with one card (name and image) per
    returned item whenever data is present. *)
Theorem list_view_blocks (st : pager) (acts : list Query.action) (b : browser)
  (ns : list node) (b' : browser) :
  Items.render st (Query.observe (Query.run acts)) b = (Some ns, b') ->
  (Query.isLoading (Query.observe (Query.run acts)) = true ->
     Query.resdata (Query.observe (Query.run acts)) = None) /\
  exists cs rest,
    ns = ((if Query.isLoading (Query.observe (Query.run acts))
           then [NText "Fetching data..."] else [])
          ++ (match Query.error (Query.observe (Query.run acts)) with
              | Some e => [NText (message e)] | None => [] end)
          ++ NGrid cs :: rest)%list /\
    Forall2 card_shows
      (match Query.resdata (Query.observe (Query.run acts)) with
       | Some d => results (data d) | None => [] end) cs.
Proof.
  intros H. split.
  - unfold Query.observe; simpl.
    destruct (Query.qstatus (Query.run acts)) eqn:Hs; try discriminate.
    intros _. apply run_loading_no_data, Hs.
  - unfold Items.render in H. injection H as H _.
    exact (ItemsTPL_shape _ _ _ _ _ _ H).
Qed.

Lemma list_view_blocks_witness :
  exists ns b',
    Items.render list_page_2
      (Query.observe (Query.run [Query.Fetch; Query.Succeed sample_response]))
      some_browser = (Some ns, b') /\
    (Query.isLoading (Query.observe (Query.run [Query.Fetch; Query.Succeed sample_response])) = true ->
     Query.resdata (Query.observe (Query.run [Query.Fetch; Query.Succeed sample_response])) = None) /\
    exists cs rest,
      ns = ((if Query.isLoading (Query.observe (Query.run [Query.Fetch; Query.Succeed sample_response]))
             then [NText "Fetching data..."] else [])
            ++ (match Query.error (Query.observe (Query.run [Query.Fetch; Query.Succeed sample_response])) with
                | Some e => [NText (message e)] | None => [] end)
            ++ NGrid cs :: rest)%list /\
      Forall2 card_shows
        (match Query.resdata (Query.observe (Query.run [Query.Fetch; Query.Succeed sample_response])) with
         | Some d => results (data d) | None => [] end) cs.
Proof.
  do 2 eexists. split; [reflexivity|].
  eapply (list_view_blocks list_page_2 [Query.Fetch; Query.Succeed sample_response] some_browser).
  reflexivity.
Defined.

(** ** C3 *)

Definition searching_pika : SearchForm.state :=
  {| SearchForm.input := Some "pika"; SearchForm.query := Some "pika" |}.

(** C3 fails as stated: a search request that fails renders no error message;
    the effect resets the found data to null and the page shows the search
    form and the paginated list. *)
Lemma search_error_counterexample :
  let searchq := Query.observe (Query.run [Query.Fetch; Query.Fail fetch_error]) in
  let itemsq := Query.observe (Query.run [Query.Fetch; Query.Succeed sample_response]) in
  SearchForm.effect searchq = SearchForm.SetNull /\
  exists ns b',
    App.render (App.load "") searching_pika list_page_2 itemsq some_browser = (Some ns, b') /\
    ~ In (NText (message fetch_error)) ns.
Proof.
  cbv zeta. split; [reflexivity|]. do 2 eexists. split; [reflexivity|].
  simpl. intuition discriminate.
Qed.

(** C3 (as the code has it): a failed list request renders its error message;
    the search form renders only the form, and a failed search resets the
    found data to null when it has no data (the list is then shown) and leaves
    it unchanged when it kept earlier data; both queries are configured with
    [retry: false]. *)
Theorem request_errors (st : pager) (acts : list Query.action) (b : browser)
  (e : axios_error) (ns : list node) (b' : browser) (sf : SearchForm.state) (p : props) :
  (Query.qerror (Query.run acts) = Some e ->
     Items.render st (Query.observe (Query.run acts)) b = (Some ns, b') ->
     In (NText (message e)) ns) /\
  SearchForm.render sf = [NSearchForm] /\
  (Query.qerror (Query.run acts) = Some e -> Query.qdata (Query.run acts) = None ->
     SearchForm.effect (Query.observe (Query.run acts)) = SearchForm.SetNull /\
     App.results_area None = App.ItemsView) /\
  (Query.qerror (Query.run acts) = Some e -> Query.qdata (Query.run acts) <> None ->
     SearchForm.effect (Query.observe (Query.run acts)) = SearchForm.Keep) /\
  Query.retry (Items.query st) = false /\
  Query.retry (SearchForm.config p sf) = false.
Proof.
  split; [|split; [reflexivity | split; [|split; [|split; reflexivity]]]].
  - intros He H. unfold Items.render in H. injection H as H _.
    destruct (ItemsTPL_shape _ _ _ _ _ _ H) as (cs & rest & -> & _).
    apply in_or_app; right. simpl Query.error. rewrite He.
    apply in_or_app; left. left; reflexivity.
  - intros _ Hd. unfold SearchForm.effect; simpl. rewrite Hd. split; reflexivity.
  - intros He Hd. unfold SearchForm.effect; simpl. rewrite He.
    destruct (Query.qdata (Query.run acts)); [|congruence].
    rewrite andb_false_r. reflexivity.
Qed.

Lemma request_errors_witness :
  In (NText (message fetch_error))
     [NText (message fetch_error); NGrid []] /\
  Items.render list_page_2 (Query.observe (Query.run [Query.Fetch; Query.Fail fetch_error])) some_browser
    = (Some [NText (message fetch_error); NGrid []], some_browser).
Proof.
  split; [|reflexivity].
  apply (proj1 (request_errors list_page_2 [Query.Fetch; Query.Fail fetch_error] some_browser
                  fetch_error [NText (message fetch_error); NGrid []] some_browser
                  searching_pika []));
    reflexivity.
Defined.

(** ** C5 *)

(** C5 (defect): the search query is interpolated into the URL without
    encoding. After typing "Mr&Mime" and clicking search on a freshly loaded
    page, the request is a GET to /api/search/pokemon/ with the right offset
    and limit, but its [q] parameter is "mr", not the query "mr&mime". *)
Theorem search_q_unencoded :
  let sf := SearchForm.handleSearchClick ascii_toLowerCase
              (SearchForm.onChange "Mr&Mime" SearchForm.init) in
  let req := Query.queryFn (SearchForm.config (App.search_props (App.load "")) sf) in
  SearchForm.query sf = Some "mr&mime" /\
  Query.enabled (SearchForm.config (App.search_props (App.load "")) sf) = true /\
  method req = "GET" /\
  req_url req = "/api/search/pokemon/?q=mr&mime&offset=0&limit=18" /\
  Url.url_path (req_url req) = "/api/search/pokemon/" /\
  Url.url_param (req_url req) "q" = Some "mr" /\
  Url.url_param (req_url req) "offset" = Some "0" /\
  Url.url_param (req_url req) "limit" = Some "18".
Proof. cbv zeta. repeat split. Qed.

(** ** C2 *)

(** C2 (defect): App reads [page] and [search] from the address bar but
    hands neither to the components that use them. Loading "?page=3&search=pika":
    App's own pager becomes page 3 / offset 36, but [Items] is mounted without
    [openedPage], so the first list request asks for offset 0 and the first
    render rewrites the address bar to "/"; [SearchForm] starts with a null
    query, so no search is issued and the list is shown. A search typed
    without a [search] parameter pages to "/?search=null&page=2". *)
Theorem url_params_not_applied :
  let st := App.load "?page=3&search=pika" in
  let items := Items.init (App.items_props st) in
  App.openedPage st = JStr "3" /\
  App.openedQuery st = JStr "pika" /\
  App.app_pager st = {| currentPage := Num 3; currentOffset := Num 36 |} /\
  items = {| currentPage := Num 1; currentOffset := Num 0 |} /\
  req_url (Query.queryFn (Items.query items)) = "/api/pokemon-detailed/?offset=0&limit=18" /\
  url (snd (Items.render items (Query.observe (Query.run [Query.Fetch]))
              {| url := "/?page=3&search=pika"; title := "Pokedex" |})) = "/" /\
  Query.enabled (SearchForm.config (App.search_props st) SearchForm.init) = false /\
  App.results_area (App.foundData st) = App.ItemsView /\
  url (snd (FoundItems.onPageChange (App.found_props (App.load "")) 2
              (App.app_pager (App.load "")) some_browser)) = "/?search=null&page=2".
Proof. cbv zeta. repeat split. Qed.

(** ** Decimal round trip *)

Lemma N_digits_acc (f : nat) (n : N) (acc : string) :
  N_digits f n acc = N_digits f n "" ++ acc.
Proof.
  revert n acc; induction f as [|f IH]; intros n acc; simpl; [reflexivity|].
  destruct (n <? 10)%N; [reflexivity|].
  rewrite (IH _ (String _ acc)), (IH _ (String _ "")), string_app_assoc. reflexivity.
Qed.

Lemma digit_val_digit_char (d : N) :
  (d < 10)%N -> digit_val 10 (digit_char d) = Some (Z.of_N d).
Proof.
  intros Hd.
  assert (d = 0 \/ d = 1 \/ d = 2 \/ d = 3 \/ d = 4 \/ d = 5 \/ d = 6 \/ d = 7
          \/ d = 8 \/ d = 9)%N as Hc by lia.
  repeat destruct Hc as [-> | Hc]; try reflexivity; subst; reflexivity.
Qed.

Lemma all_digits_app (a b : string) :
  all_digits a = true -> all_digits b = true -> all_digits (a ++ b) = true.
Proof.
  induction a as [|c a IH]; simpl; [auto|].
  destruct (digit_val 10 c); [exact IH | discriminate].
Qed.

Lemma digits_acc_app (a b : string) (o : option Z) :
  all_digits a = true -> digits_acc 10 (a ++ b) o = digits_acc 10 b (digits_acc 10 a o).
Proof.
  revert o; induction a as [|c a IH]; intros o; simpl; [reflexivity|].
  destruct (digit_val 10 c); [apply IH | discriminate].
Qed.

Lemma N_digits_value (f : nat) (n : N) :
  (n < 10 ^ N.of_nat f)%N -> (0 < f)%nat ->
  all_digits (N_digits f n "") = true /\
  digits_acc 10 (N_digits f n "") None = Some (Z.of_N n) /\
  N_digits f n "" <> "".
Proof.
  revert n; induction f as [|f IH]; intros n Hn Hf; [lia|].
  cbn [N_digits]. destruct (N.ltb_spec n 10) as [Hlt|Hge].
  - rewrite N.mod_small by exact Hlt. simpl.
    rewrite digit_val_digit_char by exact Hlt. simpl.
    split; [reflexivity | split; [reflexivity | discriminate]].
  - assert (Hf' : (0 < f)%nat).
    { destruct f; [simpl in Hn; lia | lia]. }
    assert (Hq : (n / 10 < 10 ^ N.of_nat f)%N).
    { apply N.Div0.div_lt_upper_bound.
      rewrite Nat2N.inj_succ, N.pow_succ_r' in Hn. exact Hn. }
    destruct (IH (n / 10)%N Hq Hf') as (Hd & Hv & _).
    rewrite N_digits_acc.
    assert (Hm : (n mod 10 < 10)%N) by (apply N.mod_lt; discriminate).
    split; [|split].
    + apply all_digits_app; [exact Hd|]. simpl.
      rewrite digit_val_digit_char by exact Hm. reflexivity.
    + rewrite digits_acc_app by exact Hd. rewrite Hv. simpl.
      rewrite digit_val_digit_char by exact Hm. simpl. f_equal.
      pose proof (N.div_mod n 10 ltac:(discriminate)). lia.
    + destruct (N_digits f (n / 10) ""); discriminate.
Qed.

Lemma size_nat_bound (n : N) : (n < 10 ^ N.of_nat (S (N.size_nat n)))%N.
Proof.
  destruct n as [|p]; [reflexivity|]. simpl N.size_nat.
  induction p as [p IH|p IH|]; simpl Pos.size_nat.
  - rewrite Nat2N.inj_succ, N.pow_succ_r'. lia.
  - rewrite Nat2N.inj_succ, N.pow_succ_r'. lia.
  - reflexivity.
Qed.

Lemma N_to_str_value (n : N) :
  all_digits (N_to_str n) = true /\
  digits_acc 10 (N_to_str n) None = Some (Z.of_N n) /\ N_to_str n <> "".
Proof. apply N_digits_value; [apply size_nat_bound | lia]. Qed.

Lemma digit_cases (c : ascii) :
  digit_val 10 c <> None ->
  c = "0"%char \/ c = "1"%char \/ c = "2"%char \/ c = "3"%char \/ c = "4"%char \/
  c = "5"%char \/ c = "6"%char \/ c = "7"%char \/ c = "8"%char \/ c = "9"%char.
Proof.
  destruct c as [[] [] [] [] [] [] [] []]; intros H;
    first [ exfalso; apply H; reflexivity
          | do 9 (first [left; reflexivity | right]); reflexivity ].
Qed.

Lemma parse_digit_string (s : string) (v : Z) :
  all_digits s = true -> s <> "" -> digits_acc 10 s None = Some v ->
  parseInt_str s = Num v /\ parseInt_str (String "-" s) = Num (- v).
Proof.
  destruct s as [|c r]; [congruence|]. intros Hd _ Hv.
  simpl in Hd. destruct (digit_val 10 c) eqn:Hc; [|discriminate].
  assert (Hcs := digit_cases c ltac:(congruence)).
  repeat destruct Hcs as [-> | Hcs]; try subst c;
    try (unfold parseInt_str; simpl in Hv |- *; rewrite Hv; split; f_equal; destruct v; reflexivity).
  (* a leading 0: the next character, a digit, is no 'x' *)
  - destruct r as [|x r']; [simpl in Hv; injection Hv as <-; split; reflexivity|].
    simpl in Hd. destruct (digit_val 10 x) eqn:Hx; [|discriminate].
    assert (Hxs := digit_cases x ltac:(congruence)).
    repeat destruct Hxs as [-> | Hxs]; try subst x;
      unfold parseInt_str; simpl in Hv |- *; rewrite Hv; split; f_equal; destruct v; reflexivity.
Qed.

Lemma parseInt_Z_to_str (z : Z) : parseInt_str (Z_to_str z) = Num z.
Proof.
  unfold Z_to_str. destruct (Z.ltb_spec z 0) as [Hn|Hn].
  - destruct (N_to_str_value (Z.to_N (- z))) as (Hd & Hv & Hne).
    destruct (parse_digit_string _ _ Hd Hne Hv) as [_ ->]. f_equal.
    rewrite Z2N.id by lia. lia.
  - destruct (N_to_str_value (Z.to_N z)) as (Hd & Hv & Hne).
    destruct (parse_digit_string _ _ Hd Hne Hv) as [-> _]. f_equal.
    apply Z2N.id; lia.
Qed.

Lemma Z_to_str_inj (a b : Z) : Z_to_str a = Z_to_str b -> a = b.
Proof.
  intros H. pose proof (parseInt_Z_to_str a) as Ha. rewrite H, parseInt_Z_to_str in Ha.
  congruence.
Qed.

Lemma split_on_none (c : ascii) (a : string) :
  has_char c a = false -> Url.split_on c a = [a].
Proof.
  induction a as [|x a IH]; simpl; intros H; [reflexivity|].
  apply orb_false_iff in H as [H1 H2]. rewrite H1, IH by exact H2. reflexivity.
Qed.

Lemma Z_to_str_nonempty (z : Z) : Z_to_str z <> "".
Proof.
  unfold Z_to_str. destruct (z <? 0); [discriminate|].
  apply (N_to_str_value (Z.to_N z)).
Qed.

Lemma truthy_nonempty (s : string) : s <> "" -> truthy (JStr s) = true.
Proof.
  intros H. simpl. destruct (String.eqb_spec s ""); [contradiction | reflexivity].
Qed.

Lemma get_or_null_nonempty (search k v : string) :
  Url.search_get search k = Some v -> v <> "" -> App.get_or_null search k = JStr v.
Proof.
  intros H Hv. unfold App.get_or_null. rewrite H, truthy_nonempty by exact Hv.
  reflexivity.
Qed.

Lemma load_pager_of_page (search : string) (n : Z) :
  Url.search_get search "page" = Some (Z_to_str n) ->
  App.openedPage (App.load search) = JStr (Z_to_str n) /\
  App.app_pager (App.load search)
    = {| currentPage := Num n; currentOffset := Num ((n - 1) * 18) |}.
Proof.
  intros H. pose proof (get_or_null_nonempty _ _ _ H (Z_to_str_nonempty n)) as G.
  unfold App.load, App.init, App.mount_effect. cbn zeta. rewrite G.
  cbn [App.openedPage App.app_pager]. rewrite truthy_nonempty by apply Z_to_str_nonempty.
  unfold parseInt. cbn [to_str negb]. rewrite parseInt_Z_to_str.
  split; [reflexivity|]. unfold App.itemsPerPage. simpl. do 2 f_equal. lia.
Qed.

(** ** The address bar after [history.replaceState] *)

Lemma has_char_app (c : ascii) (a b : string) :
  has_char c (a ++ b) = has_char c a || has_char c b.
Proof. induction a as [|x a IH]; simpl; [reflexivity | rewrite IH, orb_assoc; reflexivity]. Qed.

Lemma ascii_code_neq (a c : ascii) : N_of_ascii a <> N_of_ascii c -> Ascii.eqb a c = false.
Proof. intros H. destruct (Ascii.eqb_spec a c) as [->|]; [contradiction H; reflexivity | reflexivity]. Qed.

Lemma hex_digit_code (d : N) : (d < 16)%N -> (48 <= N_of_ascii (Url.hex_digit d))%N.
Proof.
  intros Hd. unfold Url.hex_digit. destruct (N.ltb_spec d 10);
    rewrite N_ascii_embedding by lia; lia.
Qed.

Lemma hex_val_digit (d : N) : (d < 16)%N -> Url.hex_val (Url.hex_digit d) = Some d.
Proof.
  intros Hd.
  assert (Hc : d = 0%N \/ d = 1%N \/ d = 2%N \/ d = 3%N \/ d = 4%N \/ d = 5%N \/
               d = 6%N \/ d = 7%N \/ d = 8%N \/ d = 9%N \/ d = 10%N \/ d = 11%N \/
               d = 12%N \/ d = 13%N \/ d = 14%N \/ d = 15%N) by lia.
  repeat (destruct Hc as [Hc|Hc]; [subst d; reflexivity|]); subst d; reflexivity.
Qed.

Lemma code_div16 (x : ascii) : (N_of_ascii x / 16 < 16)%N.
Proof.
  apply N.Div0.div_lt_upper_bound. pose proof (N_ascii_bounded x). lia.
Qed.

Lemma code_mod16 (x : ascii) : (N_of_ascii x mod 16 < 16)%N.
Proof. apply N.mod_lt. discriminate. Qed.

(** Percent-encoding writes '%' and hex digits only, so it adds no byte below
    '0' other than '%'. *)
Lemma pct_encode_no_low (c : ascii) (s : string) :
  (N_of_ascii c < 48)%N -> c <> "%"%char ->
  has_char c s = false -> has_char c (Url.pct_encode_query s) = false.
Proof.
  intros Hc Hp. induction s as [|x s IH]; cbn [has_char Url.pct_encode_query]; [reflexivity|].
  intros H. apply orb_false_iff in H as [H1 H2].
  destruct (Url.query_encode_set x); cbn [has_char].
  - rewrite (proj2 (Ascii.eqb_neq "%" c)) by congruence.
    rewrite !ascii_code_neq, IH by
      (exact H2 || (pose proof (hex_digit_code _ (code_div16 x)); lia)
                || (pose proof (hex_digit_code _ (code_mod16 x)); lia)).
    reflexivity.
  - rewrite H1, IH by exact H2. reflexivity.
Qed.

Lemma pct_decode_encode (s : string) :
  has_char "%" s = false -> Url.pct_decode (Url.pct_encode_query s) = s.
Proof.
  induction s as [|x s IH]; simpl; [reflexivity|].
  intros H. apply orb_false_iff in H as [H1 H2].
  destruct (Url.query_encode_set x); simpl.
  - rewrite !hex_val_digit by (apply code_div16 || apply code_mod16).
    rewrite IH by exact H2. f_equal.
    rewrite N.mul_comm, <- N.div_mod by discriminate. apply ascii_N_embedding.
  - rewrite H1, IH by exact H2. reflexivity.
Qed.

Lemma form_decode_encode (q : string) :
  has_char "+" q = false -> has_char "%" q = false -> Url.utf8_decode q = q ->
  Url.form_decode (Url.pct_encode_query q) = q.
Proof.
  intros H1 H2 H3. unfold Url.form_decode.
  rewrite plus_to_space_id by (apply pct_encode_no_low; [reflexivity | discriminate | exact H1]).
  rewrite pct_decode_encode by exact H2. exact H3.
Qed.

Lemma pct_encode_app (a b : string) :
  Url.pct_encode_query (a ++ b) = Url.pct_encode_query a ++ Url.pct_encode_query b.
Proof.
  induction a as [|x a IH]; simpl; [reflexivity|].
  destruct (Url.query_encode_set x); simpl; rewrite IH; reflexivity.
Qed.

Lemma pct_encode_id (s : string) :
  str_all (fun c => negb (Url.query_encode_set c)) s = true -> Url.pct_encode_query s = s.
Proof.
  induction s as [|x s IH]; simpl; [reflexivity|].
  intros H. apply andb_true_iff in H as [H1 H2].
  destruct (Url.query_encode_set x); [discriminate|]. rewrite IH by exact H2. reflexivity.
Qed.

Lemma pct_encode_nonempty (s : string) : s <> "" -> Url.pct_encode_query s <> "".
Proof.
  destruct s as [|x s]; [congruence|]. simpl. destruct (Url.query_encode_set x); discriminate.
Qed.

Lemma remove_tab_newline_id (s : string) :
  str_all (fun c => negb (Url.tab_or_newline c)) s = true -> Url.remove_tab_newline s = s.
Proof.
  induction s as [|x s IH]; simpl; [reflexivity|].
  intros H. apply andb_true_iff in H as [H1 H2].
  destruct (Url.tab_or_newline x); [discriminate|]. rewrite IH by exact H2. reflexivity.
Qed.

Lemma trim_end_app (a b : string) :
  Url.trim_end b = b -> b <> "" -> Url.trim_end (a ++ b) = a ++ b.
Proof.
  intros Hb Hne. induction a as [|x a IH]; simpl; [exact Hb|].
  rewrite IH. destruct (String.eqb_spec (a ++ b) "") as [E|E]; [|reflexivity].
  destruct a; simpl in E; [contradiction | discriminate].
Qed.

Lemma trim_end_visible (s : string) :
  str_all (fun c => (32 <? N_of_ascii c)%N) s = true -> Url.trim_end s = s.
Proof.
  induction s as [|x s IH]; simpl; [reflexivity|].
  intros H. apply andb_true_iff in H as [H1 H2]. rewrite IH by exact H2.
  replace (N_of_ascii x <=? 32)%N with false
    by (symmetry; apply N.leb_gt; apply N.ltb_lt; exact H1).
  rewrite andb_false_r. reflexivity.
Qed.

Lemma split_first_none (c : ascii) (s : string) :
  has_char c s = false -> Url.split_first c s = (s, None).
Proof.
  induction s as [|x s IH]; simpl; [reflexivity|].
  intros H. apply orb_false_iff in H as [H1 H2]. rewrite H1, IH by exact H2. reflexivity.
Qed.

(** A search query that the address bar gives back unchanged: non-empty,
    well-formed UTF-8, and free of TAB, LF and CR (removed by the URL parser)
    and of '&', '#', '%' and '+' (read specially by the URL and parameter
    parsers). *)
Definition reload_safe (q : string) : bool :=
  negb (String.eqb q "") && String.eqb (Url.utf8_decode q) q &&
  str_all (fun c => negb (Url.tab_or_newline c || Ascii.eqb c "&" || Ascii.eqb c "#"
                          || Ascii.eqb c "%" || Ascii.eqb c "+")) q.

Lemma str_all_impl (P Q : ascii -> bool) (s : string) :
  (forall c, P c = true -> Q c = true) -> str_all P s = true -> str_all Q s = true.
Proof.
  intros HPQ. induction s as [|x s IH]; simpl; [reflexivity|].
  intros H. apply andb_true_iff in H as [H1 H2]. rewrite HPQ, IH by assumption. reflexivity.
Qed.

Lemma reload_safe_spec (q : string) :
  reload_safe q = true ->
  q <> "" /\ Url.utf8_decode q = q /\
  str_all (fun c => negb (Url.tab_or_newline c)) q = true /\
  has_char "&" q = false /\ has_char "#" q = false /\
  has_char "%" q = false /\ has_char "+" q = false.
Proof.
  unfold reload_safe. intros H. apply andb_true_iff in H as [H Hs].
  apply andb_true_iff in H as [Hne Hu].
  split; [destruct (String.eqb_spec q ""); [discriminate | assumption]|].
  split; [apply String.eqb_eq; exact Hu|].
  rewrite !has_char_str_all.
  repeat split; [| apply negb_false_iff ..]; (eapply str_all_impl; [|exact Hs]);
    intros c Hc; cbv beta in *; destruct (Url.tab_or_newline c), (Ascii.eqb c "&"), (Ascii.eqb c "#"),
      (Ascii.eqb c "%"), (Ascii.eqb c "+"); simpl in *; congruence.
Qed.

(** The search part of "/?search=" ++ q ++ t, for a suffix [t] of bytes
    the URL parser keeps as they are. *)
Lemma location_search_found (q t : string) :
  reload_safe q = true ->
  Url.trim_end (q ++ t) = q ++ t ->
  str_all (fun c => negb (Url.query_encode_set c)) t = true ->
  Url.location_search ("/?search=" ++ q ++ t)
  = String "?" ("search=" ++ Url.pct_encode_query q ++ t).
Proof.
  intros Hq Ht Hp. destruct (reload_safe_spec q Hq) as (Hne & _ & Htab & _ & Hhash & _ & _).
  assert (Ht_tab : str_all (fun c => negb (Url.tab_or_newline c)) t = true).
  { clear - Hp. induction t as [|x t IH]; simpl in *; [reflexivity|].
    apply andb_true_iff in Hp as [H1 H2]. rewrite IH by exact H2.
    unfold Url.query_encode_set, Url.tab_or_newline in *.
    destruct (N.ltb_spec (N_of_ascii x) 33); [discriminate|].
    destruct (N.eqb_spec (N_of_ascii x) 9); [lia|].
    destruct (N.eqb_spec (N_of_ascii x) 10); [lia|].
    destruct (N.eqb_spec (N_of_ascii x) 13); [lia | reflexivity]. }
  assert (Ht_hash : has_char "#" t = false).
  { rewrite has_char_str_all. clear - Hp. induction t as [|x t IH]; simpl in *; [reflexivity|].
    apply andb_true_iff in Hp as [H1 H2]. rewrite negb_andb, IH by exact H2.
    destruct (Ascii.eqb_spec x "#") as [->|]; [discriminate | reflexivity]. }
  unfold Url.location_search. cbv zeta.
  replace (Url.trim_start ("/?search=" ++ q ++ t)) with ("/?search=" ++ q ++ t)
    by reflexivity.
  rewrite trim_end_app by (exact Ht || (destruct q; [contradiction | discriminate])).
  rewrite remove_tab_newline_id
    by (rewrite str_all_app, str_all_app, Htab, Ht_tab; reflexivity).
  rewrite (split_first_none "#") by (rewrite has_char_app, has_char_app, Hhash, Ht_hash; reflexivity).
  cbn [fst]. replace (Url.split_first "?" ("/?search=" ++ q ++ t))
    with ("/", Some ("search=" ++ q ++ t)) by reflexivity.
  cbn [snd]. rewrite !pct_encode_app, (pct_encode_id t Hp).
  replace (Url.pct_encode_query "search=") with "search=" by reflexivity.
  reflexivity.
Qed.

(** The parameters of the search part the address bar gives back. *)
Lemma found_search_params (q : string) (n : Z) :
  reload_safe q = true ->
  Url.params (String "?" ("search=" ++ Url.pct_encode_query q ++ "&page=" ++ Z_to_str n))
  = [("search", q); ("page", Z_to_str n)] /\
  Url.params (String "?" ("search=" ++ Url.pct_encode_query q)) = [("search", q)].
Proof.
  intros Hq. destruct (reload_safe_spec q Hq) as (Hne & Hu & _ & Hamp & _ & Hpct & Hplus).
  pose proof (form_decode_encode q Hplus Hpct Hu) as Hd.
  assert (He : has_char "&" ("search=" ++ Url.pct_encode_query q) = false).
  { simpl. apply pct_encode_no_low; [reflexivity | discriminate | exact Hamp]. }
  unfold Url.params. split.
  - cbv iota beta zeta.
    change (Url.split_on "&" ("search=" ++ Url.pct_encode_query q ++ "&page=" ++ Z_to_str n))
      with (Url.split_on "&" (("search=" ++ Url.pct_encode_query q)
                              ++ String "&" ("page=" ++ Z_to_str n))).
    rewrite split_on_app by exact He.
    rewrite split_on_none by (simpl; apply Z_to_str_no_amp).
    simpl. rewrite Hd, form_decode_Z_to_str. reflexivity.
  - cbv iota beta zeta. rewrite split_on_none by exact He. simpl. rewrite Hd. reflexivity.
Qed.

Lemma string_app_nil (s : string) : s ++ "" = s.
Proof. induction s as [|x s IH]; simpl; [reflexivity | rewrite IH; reflexivity]. Qed.

(** ** Reloading the address bar a page change writes *)

(** Paging the list writes "/?page=N"; loading that URL gives App the page N
    and the offset (N-1)*18 back. *)
Theorem items_url_reload (n : Z) (st : pager) (b : browser) :
  App.openedPage (App.load (Url.url_search (url (snd (Items.onPageChange n st b)))))
    = JStr (Z_to_str n) /\
  App.app_pager (App.load (Url.url_search (url (snd (Items.onPageChange n st b)))))
    = {| currentPage := Num n; currentOffset := Num ((n - 1) * 18) |}.
Proof.
  apply load_pager_of_page. simpl.
  unfold Url.search_get, Url.params.
  rewrite split_on_none by (simpl; apply Z_to_str_no_amp).
  simpl. rewrite form_decode_Z_to_str. reflexivity.
Qed.

(** Paging search results writes "/?search=Q&page=N"; reading the address bar
    back after a reload gives App the search query Q, the page N and the
    offset (N-1)*18, for a query the address bar keeps ([reload_safe]). *)
Theorem found_url_reload (st : App.state) (q : string) (n : Z) (p : pager) (b : browser) :
  App.searchQuery st = JStr q -> reload_safe q = true ->
  App.searchQuery (App.load (Url.location_search
    (url (snd (FoundItems.onPageChange (App.found_props st) n p b))))) = JStr q /\
  App.app_pager (App.load (Url.location_search
    (url (snd (FoundItems.onPageChange (App.found_props st) n p b)))))
  = {| currentPage := Num n; currentOffset := Num ((n - 1) * 18) |}.
Proof.
  intros Hq Hs. destruct (reload_safe_spec q Hs) as (Hne & _).
  replace (url (snd (FoundItems.onPageChange (App.found_props st) n p b)))
    with ("/?search=" ++ q ++ ("&page=" ++ Z_to_str n)) by (simpl; rewrite Hq; reflexivity).
  assert (Hv : str_all (fun c => (32 <? N_of_ascii c)%N) ("&page=" ++ Z_to_str n) = true).
  { rewrite str_all_app, Z_to_str_all; [reflexivity | reflexivity | ten_digits]. }
  rewrite location_search_found; [| exact Hs | |].
  2:{ apply trim_end_app; [apply trim_end_visible, Hv | discriminate]. }
  2:{ rewrite str_all_app, Z_to_str_all; [reflexivity | reflexivity | ten_digits]. }
  destruct (found_search_params q n Hs) as [Hp _].
  split.
  - unfold App.load, App.init, App.mount_effect. cbn zeta.
    rewrite (get_or_null_nonempty _ "search" q); [reflexivity | | exact Hne].
    unfold Url.search_get. rewrite Hp. reflexivity.
  - apply load_pager_of_page. unfold Url.search_get. rewrite Hp. reflexivity.
Qed.

Lemma found_url_reload_witness :
  App.searchQuery (App.load (Url.location_search
    (url (snd (FoundItems.onPageChange (App.found_props (App.load "?search=mr%20mime")) 3
                 (App.app_pager (App.load "?search=mr%20mime")) some_browser)))))
  = JStr "mr mime" /\
  App.app_pager (App.load (Url.location_search
    (url (snd (FoundItems.onPageChange (App.found_props (App.load "?search=mr%20mime")) 3
                 (App.app_pager (App.load "?search=mr%20mime")) some_browser)))))
  = {| currentPage := Num 3; currentOffset := Num ((3 - 1) * 18) |}.
Proof.
  apply (found_url_reload (App.load "?search=mr%20mime") "mr mime"); reflexivity.
Defined.

Lemma ItemsTPL_tail (isLoading : bool) (err : option axios_error)
  (resp : option response) (itemCount : jsval) (pd : paginationData) (ns : list node) :
  ItemsTPL isLoading err resp itemCount pd = Some ns ->
  exists pre,
    ns = (pre ++ (if truthy itemCount
                  then [NPagination (pd_currentPage pd) (pd_totalPages pd)]
                  else render_falsy itemCount))%list /\
    forall x y, ~ In (NPagination x y) pre.
Proof.
  unfold ItemsTPL. intros H.
  destruct (match resp with
            | Some r => option_map NGrid (map_cards (results (data r)))
            | None => Some (NGrid []) end) as [g|] eqn:Hg; [|discriminate].
  injection H as <-.
  exists ((if isLoading then [NText "Fetching data..."] else [])
          ++ (match err with Some e => [NText (message e)] | None => [] end) ++ [g])%list.
  split; [rewrite <- !app_assoc; reflexivity|].
  intros x y Hin. apply in_app_or in Hin as [Hin|Hin].
  - destruct isLoading; simpl in Hin; intuition discriminate.
  - apply in_app_or in Hin as [Hin|Hin].
    + destruct err; simpl in Hin; intuition discriminate.
    + destruct Hin as [Hin|[]]. subst g.
      destruct resp as [r|]; simpl in Hg; [|congruence].
      destruct (map_cards (results (data r))); simpl in Hg; congruence.
Qed.

Lemma map_cards_throws (l : list pokemon) (p : pokemon) :
  In p l -> sprites_of p = None -> map_cards l = None.
Proof.
  induction l as [|x l IH]; simpl; [tauto|]. intros [<-|Hin] Hs.
  - unfold card. rewrite Hs. reflexivity.
  - rewrite (IH Hin Hs). destruct (card x); reflexivity.
Qed.

(** ** Pagination of the list *)

(** With a response whose count is positive, the list renders a pagination
    control on the current page whose page total t is Math.ceil(count/18):
    the least number of 18-item pages holding count items. *)
Theorem list_pagination_total (st : pager) (r : Query.result) (b : browser)
  (resp : response) (ns : list node) (b' : browser) :
  Query.resdata r = Some resp -> 0 < count (data resp) ->
  Items.render st r b = (Some ns, b') ->
  exists t, In (NPagination (currentPage st) (JNum (Num t))) ns /\
            (t - 1) * 18 < count (data resp) <= t * 18.
Proof.
  intros Hr Hc H. unfold Items.render in H. rewrite Hr in H.
  injection H as H _. apply ItemsTPL_tail in H as (pre & -> & _).
  simpl truthy. destruct (Z.eqb_spec (count (data resp)) 0) as [E|_]; [lia|].
  exists (ceil_div (count (data resp)) Items.itemsPerPage). split.
  - apply in_or_app. right. left. reflexivity.
  - unfold ceil_div, Items.itemsPerPage.
    pose proof (Z.div_mod (- count (data resp)) 18 ltac:(discriminate)).
    pose proof (Z.mod_pos_bound (- count (data resp)) 18 ltac:(reflexivity)). lia.
Qed.

Definition response_37 : response := {| data := {| count := 37; results := sample_items |} |}.

Lemma list_pagination_total_witness :
  exists ns b', Items.render list_page_2
      (Query.observe (Query.run [Query.Fetch; Query.Succeed response_37])) some_browser
      = (Some ns, b') /\
  exists t, In (NPagination (currentPage list_page_2) (JNum (Num t))) ns /\
            (t - 1) * 18 < count (data response_37) <= t * 18.
Proof.
  do 2 eexists. split; [reflexivity|].
  eapply (list_pagination_total list_page_2
            (Query.observe (Query.run [Query.Fetch; Query.Succeed response_37]))
            some_browser response_37);
    [reflexivity | simpl; lia | reflexivity].
Defined.

(** With a response whose count is 0, the list renders no pagination control
    and React prints the number 0 in its place ([0 && ...] is 0). *)
Theorem list_zero_count (st : pager) (r : Query.result) (b : browser)
  (resp : response) (ns : list node) (b' : browser) :
  Query.resdata r = Some resp -> count (data resp) = 0 ->
  Items.render st r b = (Some ns, b') ->
  In (NText "0") ns /\ forall x y, ~ In (NPagination x y) ns.
Proof.
  intros Hr Hc H. unfold Items.render in H. rewrite Hr, Hc in H.
  injection H as H _. apply ItemsTPL_tail in H as (pre & -> & Hpre). simpl.
  split.
  - apply in_or_app. right. left. reflexivity.
  - intros x y Hin. apply in_app_or in Hin as [Hin|[Hin|[]]];
      [exact (Hpre x y Hin) | discriminate].
Qed.

Definition response_0 : response := {| data := {| count := 0; results := [] |} |}.

Lemma list_zero_count_witness :
  In (NText "0") [NGrid []; NText "0"] /\
  forall x y, ~ In (NPagination x y) [NGrid []; NText "0"].
Proof.
  apply (list_zero_count list_page_2
           (Query.observe (Query.run [Query.Fetch; Query.Succeed response_0]))
           some_browser response_0 _ some_browser);
    reflexivity.
Defined.

(** One returned item whose [sprites] is null or undefined makes the whole
    list render throw (a TypeError on [pokemon.sprites.front_default]), even
    after the address bar effect ran. *)
Theorem list_render_throws (st : pager) (r : Query.result) (b : browser)
  (resp : response) (p : pokemon) :
  Query.resdata r = Some resp -> In p (results (data resp)) -> sprites_of p = None ->
  fst (Items.render st r b) = None.
Proof.
  intros Hr Hin Hs. unfold Items.render. rewrite Hr. simpl. unfold ItemsTPL.
  rewrite (map_cards_throws _ _ Hin Hs). reflexivity.
Qed.

Lemma list_render_throws_witness :
  fst (Items.render list_page_2
         (Query.observe (Query.run [Query.Fetch; Query.Succeed
            {| data := {| count := 1; results := [{| name := JStr "ditto"; sprites_of := None |}] |} |}]))
         some_browser) = None.
Proof.
  apply (list_render_throws _ _ _
           {| data := {| count := 1; results := [{| name := JStr "ditto"; sprites_of := None |}] |} |}
           {| name := JStr "ditto"; sprites_of := None |});
    [reflexivity | left; reflexivity | reflexivity].
Defined.

(** ** Address bar and title after a list page change *)

(** A list page change followed by the render it causes leaves "/" and the
    title "Pokedex" for page 1 (the "/?page=1" just written is replaced), and
    "/?page=N" with "Pokedex | Page N" for any other page. *)
Theorem list_page_change_then_render (n : Z) (st : pager) (b : browser) (r : Query.result) :
  snd (Items.render (fst (Items.onPageChange n st b)) r (snd (Items.onPageChange n st b)))
  = if Z.eqb n 1 then {| url := "/"; title := "Pokedex" |}
    else {| url := "/?page=" ++ Z_to_str n; title := "Pokedex | Page " ++ Z_to_str n |}.
Proof. unfold Items.render. simpl. destruct (Z.eqb n 1); reflexivity. Qed.

(** ** Search results view *)

(** The search results view never shows a loading indicator or an error: a
    successful render starts with the grid, one card per result. *)
Theorem found_view_grid_first (st : App.state) (d : response) (b : browser)
  (ns : list node) (b' : browser) :
  FoundItems.render (App.found_props st) d b = (Some ns, b') ->
  exists cs rest, ns = NGrid cs :: rest /\ Forall2 card_shows (results (data d)) cs.
Proof.
  unfold FoundItems.render. intros H. injection H as H _.
  destruct (ItemsTPL_shape _ _ _ _ _ _ H) as (cs & rest & -> & Hcs).
  exists cs, rest. split; [reflexivity | exact Hcs].
Qed.

Lemma found_view_grid_first_witness :
  exists ns b', FoundItems.render (App.found_props (App.load "?search=bulba")) sample_response
                  some_browser = (Some ns, b') /\
  exists cs rest, ns = NGrid cs :: rest /\ Forall2 card_shows (results (data sample_response)) cs.
Proof.
  do 2 eexists. split; [reflexivity|].
  eapply (found_view_grid_first (App.load "?search=bulba") sample_response some_browser).
  reflexivity.
Defined.

(** The first page of search results rewrites the address bar to
    "/?search=Q"; reading it back after a reload gives App the search query Q
    on page 1 at offset 0, for a query the address bar keeps
    ([reload_safe]) that does not end in a space or a control character
    (the URL parser trims those). *)
Theorem found_first_page_reload (st : App.state) (q : string) (d : response) (b : browser) :
  App.searchQuery st = JStr q -> reload_safe q = true -> Url.trim_end q = q ->
  currentPage (App.app_pager st) = Num 1 ->
  App.searchQuery (App.load (Url.location_search
    (url (snd (FoundItems.render (App.found_props st) d b))))) = JStr q /\
  App.app_pager (App.load (Url.location_search
    (url (snd (FoundItems.render (App.found_props st) d b)))))
  = {| currentPage := Num 1; currentOffset := Num 0 |}.
Proof.
  intros Hq Hs Ht H1. destruct (reload_safe_spec q Hs) as (Hne & _).
  replace (url (snd (FoundItems.render (App.found_props st) d b)))
    with ("/?search=" ++ q ++ "")
    by (unfold FoundItems.render; simpl; rewrite Hq, H1, truthy_nonempty by exact Hne;
        simpl; rewrite string_app_nil; reflexivity).
  rewrite location_search_found by (rewrite ?string_app_nil; first [exact Hs | exact Ht | reflexivity]).
  rewrite string_app_nil.
  destruct (found_search_params q 1 Hs) as [_ Hp].
  assert (Hsq : App.get_or_null (String "?" ("search=" ++ Url.pct_encode_query q)) "search"
                = JStr q).
  { apply get_or_null_nonempty; [unfold Url.search_get; rewrite Hp; reflexivity | exact Hne]. }
  assert (Hpg : App.get_or_null (String "?" ("search=" ++ Url.pct_encode_query q)) "page"
                = JNull).
  { unfold App.get_or_null, Url.search_get. rewrite Hp. reflexivity. }
  unfold App.load, App.init, App.mount_effect. cbn zeta. rewrite Hsq, Hpg.
  split; reflexivity.
Qed.

Lemma found_first_page_reload_witness :
  App.searchQuery (App.load (Url.location_search
    (url (snd (FoundItems.render (App.found_props (App.load "?search=bulba"))
                 sample_response some_browser))))) = JStr "bulba" /\
  App.app_pager (App.load (Url.location_search
    (url (snd (FoundItems.render (App.found_props (App.load "?search=bulba"))
                 sample_response some_browser)))))
  = {| currentPage := Num 1; currentOffset := Num 0 |}.
Proof.
  apply (found_first_page_reload (App.load "?search=bulba") "bulba"); reflexivity.
Defined.

(** ** The search form *)

(** Clicking the search button twice without typing in between has the same
    effect as clicking it once, whatever the case mapping. *)
Theorem search_click_idempotent (toLowerCase : string -> string) (st : SearchForm.state) :
  SearchForm.handleSearchClick toLowerCase (SearchForm.handleSearchClick toLowerCase st)
  = SearchForm.handleSearchClick toLowerCase st.
Proof.
  destruct st as [input query]. unfold SearchForm.handleSearchClick. simpl.
  destruct input as [s|]; simpl; [|reflexivity].
  destruct (String.eqb s "") eqn:Hs; simpl; [rewrite Hs; reflexivity|].
  destruct query as [q|]; simpl.
  - destruct (String.eqb_spec q (toLowerCase s)) as [->|]; simpl;
      rewrite ?Hs; simpl; rewrite ?String.eqb_refl; reflexivity.
  - rewrite Hs. simpl. rewrite String.eqb_refl. reflexivity.
Qed.

Lemma string_app_inj (p a b : string) : p ++ a = p ++ b -> a = b.
Proof. induction p as [|x p IH]; simpl; [auto | intros H; injection H; auto]. Qed.

(** The search query key is the query and the offset concatenated, so two
    different searches can share a key: the query Q++"18" on the first page
    and the query Q at offset 180 (page 11) both get "searching-Q180" although
    they request different URLs. *)
Theorem search_key_collision (st1 st2 : App.state) (sf1 sf2 : SearchForm.state) (q : string) :
  currentOffset (App.app_pager st1) = Num 0 ->
  currentOffset (App.app_pager st2) = Num 180 ->
  SearchForm.query sf1 = Some (q ++ "18") ->
  SearchForm.query sf2 = Some q ->
  Query.queryKey (SearchForm.config (App.search_props st1) sf1)
    = Query.queryKey (SearchForm.config (App.search_props st2) sf2) /\
  req_url (Query.queryFn (SearchForm.config (App.search_props st1) sf1))
    <> req_url (Query.queryFn (SearchForm.config (App.search_props st2) sf2)).
Proof.
  intros H1 H2 Q1 Q2. unfold SearchForm.config, App.search_props.
  cbn [props_get String.eqb Ascii.eqb Bool.eqb andb]. simpl props_get.
  rewrite H1, H2, Q1, Q2. simpl. split.
  - f_equal. repeat (apply f_equal). rewrite string_app_assoc. reflexivity.
  - intros E. apply string_app_inj with (p := "/api/search/pokemon/?q=") in E.
    rewrite string_app_assoc in E. apply string_app_inj in E. discriminate.
Qed.

Lemma search_key_collision_witness :
  Query.queryKey (SearchForm.config (App.search_props (App.load ""))
                    {| SearchForm.input := Some "x18"; SearchForm.query := Some "x18" |})
  = Query.queryKey (SearchForm.config (App.search_props (App.load "?page=11"))
                    {| SearchForm.input := Some "x"; SearchForm.query := Some "x" |}) /\
  req_url (Query.queryFn (SearchForm.config (App.search_props (App.load ""))
                    {| SearchForm.input := Some "x18"; SearchForm.query := Some "x18" |}))
  <> req_url (Query.queryFn (SearchForm.config (App.search_props (App.load "?page=11"))
                    {| SearchForm.input := Some "x"; SearchForm.query := Some "x" |})).
Proof. apply (search_key_collision _ _ _ _ "x"); reflexivity. Defined.

(** ** Loading the page *)



(** ** The list query key *)

Lemma reachable_items_shape (search : string) (pg : App.page) :
  App.reachable search pg ->
  exists k, App.items pg = {| currentPage := Num k; currentOffset := Num ((k - 1) * 18) |}.
Proof.
  induction 1 as [| pg n _ IH | pg n _ IH | pg _ IH | pg sq fd _ IH]; simpl;
    try exact IH; try (rewrite Items_init_from_App; exists 1; reflexivity).
  exists n. unfold Items.itemsPerPage. do 2 f_equal. lia.
Qed.

(** The list query key names only the page, yet it is a faithful cache key:
    any two reachable states whose list queries share a key request the same
    URL. *)
Theorem list_key_determines_request (search : string) (pg1 pg2 : App.page) :
  App.reachable search pg1 -> App.reachable search pg2 ->
  Query.queryKey (Items.query (App.items pg1)) = Query.queryKey (Items.query (App.items pg2)) ->
  Query.queryFn (Items.query (App.items pg1)) = Query.queryFn (Items.query (App.items pg2)).
Proof.
  intros H1 H2 Hk.
  destruct (reachable_items_shape _ _ H1) as (k1 & E1).
  destruct (reachable_items_shape _ _ H2) as (k2 & E2).
  rewrite E1, E2 in *. unfold Items.query in *. simpl in Hk.
  apply (string_app_inj "pokelist-page-") in Hk. apply Z_to_str_inj in Hk. subst.
  reflexivity.
Qed.

Definition back_to_page_1 : App.page :=
  let pg := App.load_page "?page=5" in
  {| App.app := App.app pg;
     App.items := fst (Items.onPageChange 1 (App.items pg) (App.browser_of pg));
     App.browser_of := snd (Items.onPageChange 1 (App.items pg) (App.browser_of pg)) |}.

Lemma list_key_determines_request_witness :
  Query.queryFn (Items.query (App.items (App.load_page "?page=5")))
  = Query.queryFn (Items.query (App.items back_to_page_1)).
Proof.
  apply (list_key_determines_request "?page=5");
    [apply App.reach_load | apply App.reach_items_page, App.reach_load | reflexivity].
Defined.
